(** * Clueso / ProductAI: a shallow embedding of the narration pipeline

    The Python services of [app/services] are embedded here:
    - [dom_event_service.py] and [rag_service.py]: the Event Segmenter and the
      Context Builder's event descriptions;
    - [script_generation_service.py]: the Timing Analyzer, the script
      generator's failure handling and its output normalisation;
    - [elevenlabs_service.py]: sentence chunking, the retrying synthesis of
      one chunk and [generate_voice_from_text];
    - [dom_event_service.py]: [process_dom_events] and
      [extract_text_from_events];
    - [rag_service.py]: the RAG context, the timeline and the UI summary;
    - [synced_narration_service.py]: the two narration generators and
      [_parse_steps];
    - [script_generation_service.py]: [build_timing_context];
    - [models/request_models.py]: the [words], [sentences] and
      [paragraphs] properties of [AudioProcessRequest].

    Conventions.  Python [int] timestamps are [Z]; Python [float] values are
    Rocq's primitive binary64 floats, whose arithmetic and comparisons are the
    IEEE ones Python uses.  Text processed character by character is a
    [list ascii] ([pystr]); ASCII whitespace is what Python's [str.isspace]
    and the regex class [\s] accept.  Exceptions are values of [exn] and
    fallible code runs in the [PyResult] error monad. *)

From Stdlib Require Import String Ascii List ZArith Bool Floats Lia.
From Stdlib Require Import Init.Byte.
Import ListNotations.

(* ------------------------------------------------------------------ *)
(** ** Python runtime: exceptions, characters and string helpers *)

Module Py.

Inductive exn : Type :=
| ZeroDivisionError
| KeyError (key : string)
| RuntimeError (msg : string)
| TimeoutExc (msg : string)          (* requests.exceptions.Timeout *)
| RequestException (msg : string)    (* requests.exceptions.RequestException *)
| OtherExc (msg : string).

(** [str(e)] *)
Definition str_exn (e : exn) : string :=
  match e with
  | ZeroDivisionError => "float division by zero"
  | KeyError k => String "'" (k ++ "'")
  | RuntimeError m | TimeoutExc m | RequestException m | OtherExc m => m
  end.

Inductive PyResult (A : Type) : Type :=
| Ok (a : A)
| Raise (e : exn).
Arguments Ok {A} a.
Arguments Raise {A} e.

Definition bind {A B} (m : PyResult A) (k : A -> PyResult B) : PyResult B :=
  match m with Ok a => k a | Raise e => Raise e end.

Notation "x <- m ;; k" := (bind m (fun x => k))
  (at level 61, m at next level, right associativity).

(** [try: body except Exception as e: handler(e)] *)
Definition try_except {A} (body : PyResult A) (handler : exn -> PyResult A)
  : PyResult A :=
  match body with Ok a => Ok a | Raise e => handler e end.

(** Python [x / y] on floats. *)
Definition fdiv (x y : float) : PyResult float :=
  if PrimFloat.eqb y 0%float then Raise ZeroDivisionError else Ok (x / y)%float.

(** Python [x > y] and [x <= y] on floats. *)
Definition fgt (x y : float) : bool := PrimFloat.ltb y x.
Definition fle (x y : float) : bool := PrimFloat.leb x y.

(** [float(n)]: the nearest binary64 value, ties to even. *)
Definition float_of_nat (n : nat) : float :=
  SF2Prim (binary_normalize prec emax (Z.of_nat n) 0 false).

(** Python [x / n] for a float [x] and an int [n]: [n] is converted with
    [float(n)], which is zero exactly when [n] is. *)
Definition fdiv_int (x : float) (n : nat) : PyResult float :=
  if Nat.eqb n 0 then Raise ZeroDivisionError else Ok (x / float_of_nat n)%float.

(** Python [str(n)] for non-negative integers. *)
Fixpoint digits_aux (fuel n : nat) (acc : string) : string :=
  match fuel with
  | O => acc
  | S f =>
      let acc' := String (ascii_of_nat (48 + n mod 10)) acc in
      if n <? 10 then acc' else digits_aux f (n / 10) acc'
  end.
Definition str_nat (n : nat) : string := digits_aux (S n) n EmptyString.
Definition str_Z (z : Z) : string :=
  match z with
  | Zneg p => String "-" (str_nat (Pos.to_nat p))
  | _ => str_nat (Z.to_nat z)
  end.

(** [str.lower] on ASCII. *)
Definition lower_char (c : ascii) : ascii :=
  let n := nat_of_ascii c in
  if (65 <=? n) && (n <=? 90) then ascii_of_nat (n + 32) else c.
Fixpoint lower (s : string) : string :=
  match s with
  | EmptyString => EmptyString
  | String c s' => String (lower_char c) (lower s')
  end.

(** [needle in hay] on strings. *)
Fixpoint contains (needle hay : string) : bool :=
  String.prefix needle hay ||
  match hay with
  | EmptyString => false
  | String _ hay' => contains needle hay'
  end.

(** [s[:n]] *)
Definition take_str (n : nat) (s : string) : string := substring 0 n s.

(** Truthiness of an optional string: [None] and [""] are false. *)
Definition truthy_str (o : option string) : bool :=
  match o with Some (String _ _) => true | _ => false end.

(** [d.get(k)] on a [Dict[str, str]] (keys are unique). *)
Fixpoint dict_get (k : string) (d : list (string * string)) : option string :=
  match d with
  | [] => None
  | (k', v) :: d' => if String.eqb k k' then Some v else dict_get k d'
  end.

(** Characters. *)
Definition pystr := list ascii.

(** [str.isspace] / regex [\s] on ASCII: tab, LF, VT, FF, CR, the
    separators 0x1c..0x1f and space. *)
Definition is_space (c : ascii) : bool :=
  let n := nat_of_ascii c in
  ((9 <=? n) && (n <=? 13)) || ((28 <=? n) && (n <=? 32)).

Fixpoint lstrip (s : pystr) : pystr :=
  match s with
  | [] => []
  | c :: s' => if is_space c then lstrip s' else s
  end.
Definition rstrip (s : pystr) : pystr := rev (lstrip (rev s)).
(** [str.strip()] *)
Definition strip (s : pystr) : pystr := rstrip (lstrip s).

(** [sep.join(l)] *)
Fixpoint join (sep : pystr) (l : list pystr) : pystr :=
  match l with
  | [] => []
  | [x] => x
  | x :: l' => x ++ sep ++ join sep l'
  end.

Definition sp : ascii := " "%char.

End Py.
Import Py.

(* ------------------------------------------------------------------ *)
(** ** [app/models/dom_event_models.py] *)

Module Models.

Record BoundingBox := { bb_x : float; bb_y : float; bb_width : float; bb_height : float }.

(** [EventTarget]; its fields [id] and [type] are named [target_id] and
    [target_type] here, since Rocq projections share one name space. *)
Record EventTarget := {
  tag : string;
  target_id : option string;
  classes : list string;
  text : option string;
  selector : string;
  bbox : BoundingBox;
  attributes : list (string * string);
  target_type : option string;
  name : option string }.

Record ScrollPosition := { x : float; y : float }.

Record Viewport := { width : Z; height : Z }.

Record EventMetadata := {
  url : string;
  viewport : Viewport;
  scrollPosition : option ScrollPosition }.

(** [Literal["click", "type", "focus", "blur", "scroll", "step_change"]] *)
Inductive EventType := click | type_ | focus | blur | scroll | step_change.

Definition EventType_eqb (a b : EventType) : bool :=
  match a, b with
  | click, click | type_, type_ | focus, focus | blur, blur
  | scroll, scroll | step_change, step_change => true
  | _, _ => false
  end.

Record InteractionEvent := {
  timestamp : Z;
  type : EventType;
  target : option EventTarget;
  value : option string;
  metadata : EventMetadata }.

(** [RecordingSession]; [processedAt] (an optional datetime) is kept as its
    ISO text. *)
Record RecordingSession := {
  sessionId : string;
  session_startTime : Z;
  session_endTime : Z;
  session_url : string;
  session_viewport : Viewport;
  session_events : list InteractionEvent;
  videoPath : option string;
  audioPath : option string;
  processedAt : option string }.

End Models.
Import Models.

(* ------------------------------------------------------------------ *)
(** ** [app/services/dom_event_service.py] *)

Module DomEventService.

Record Step := {
  stepNumber : nat;
  startTime : Z;
  endTime : Z;
  events : list InteractionEvent;
  description : string }.

Definition STEP_THRESHOLD_MS : Z := 2000.

(** The [for i, event in enumerate(events[1:], 1)] loop; [prev] is
    [events[i-1]]. *)
Fixpoint group_loop (steps : list Step) (current_step : Step)
    (prev : InteractionEvent) (rest : list InteractionEvent) : list Step :=
  match rest with
  | [] =>
      (* Add final step *)
      match events current_step with
      | [] => steps
      | _ :: _ => steps ++ [current_step]
      end
  | event :: rest' =>
      let time_gap := (timestamp event - endTime current_step)%Z in
      if (time_gap >? STEP_THRESHOLD_MS)%Z
         || EventType_eqb (type event) step_change then
        let closed := {| stepNumber := stepNumber current_step;
                         startTime := startTime current_step;
                         endTime := timestamp prev;
                         events := events current_step;
                         description := description current_step |} in
        let steps' := steps ++ [closed] in
        group_loop steps'
          {| stepNumber := length steps' + 1;
             startTime := timestamp event;
             endTime := timestamp event;
             events := [event];
             description := "" |} event rest'
      else
        group_loop steps
          {| stepNumber := stepNumber current_step;
             startTime := startTime current_step;
             endTime := timestamp event;
             events := events current_step ++ [event];
             description := description current_step |} event rest'
  end.

Definition group_events_by_step (evs : list InteractionEvent) : list Step :=
  match evs with
  | [] => []
  | e0 :: rest =>
      group_loop []
        {| stepNumber := 1; startTime := timestamp e0; endTime := timestamp e0;
           events := [e0]; description := "" |} e0 rest
  end.

End DomEventService.

(* ------------------------------------------------------------------ *)
(** ** [app/services/rag_service.py] *)

Module RagService.

(** The steps of [_group_events_into_steps] carry no [description]. *)
Record Step := {
  stepNumber : nat;
  startTime : Z;
  endTime : Z;
  events : list InteractionEvent }.

Definition STEP_THRESHOLD_MS : Z := 2000.

Fixpoint group_loop (steps : list Step) (current_step : Step)
    (prev : InteractionEvent) (rest : list InteractionEvent) : list Step :=
  match rest with
  | [] =>
      match events current_step with
      | [] => steps
      | _ :: _ => steps ++ [current_step]
      end
  | event :: rest' =>
      let time_gap := (timestamp event - endTime current_step)%Z in
      if (time_gap >? STEP_THRESHOLD_MS)%Z
         || EventType_eqb (type event) step_change then
        let closed := {| stepNumber := stepNumber current_step;
                         startTime := startTime current_step;
                         endTime := timestamp prev;
                         events := events current_step |} in
        let steps' := steps ++ [closed] in
        group_loop steps'
          {| stepNumber := length steps' + 1;
             startTime := timestamp event;
             endTime := timestamp event;
             events := [event] |} event rest'
      else
        group_loop steps
          {| stepNumber := stepNumber current_step;
             startTime := startTime current_step;
             endTime := timestamp event;
             events := events current_step ++ [event] |} event rest'
  end.

Definition _group_events_into_steps (evs : list InteractionEvent) : list Step :=
  match evs with
  | [] => []
  | e0 :: rest =>
      group_loop []
        {| stepNumber := 1; startTime := timestamp e0; endTime := timestamp e0;
           events := [e0] |} e0 rest
  end.

Section Describe.
Local Open Scope string_scope.

(** Python's float-to-text conversions, which the narrative only copies:
    [str_float x] is [f"{x}"] and [fmt_seconds ms] is
    [f"{ms / 1000.0:.1f}"]. *)
Variable str_float : float -> string.
Variable fmt_seconds : Z -> string.

(** [_describe_event]; [None] is Python's [None]. *)
Definition _describe_event (event : InteractionEvent) : option string :=
  match type event with
  | click =>
      match target event with
      | Some t =>
          if truthy_str (text t) then
            Some ("Clicked on '" ++ match text t with Some s => s | None => "" end ++ "'")
          else match dict_get "data-testid" (attributes t) with
          | Some (String _ _ as tid) => Some ("Clicked on " ++ tid)
          | _ =>
            if truthy_str (Some (tag t)) then
              Some ("Clicked on " ++ lower (tag t) ++ " element")
            else Some "Clicked"
          end
      | None => Some "Clicked"
      end
  | type_ =>
      match value event with
      | Some (String _ _ as v) =>
          let display_value :=
            if Nat.ltb 50 (String.length v) then take_str 50 v ++ "..." else v in
          match target event with
          | Some t =>
              match dict_get "data-testid" (attributes t) with
              | Some (String _ _ as tid) =>
                  Some ("Typed '" ++ display_value ++ "' in " ++ tid)
              | _ =>
                  match target_type t with
                  | Some (String _ _ as ty) =>
                      Some ("Typed '" ++ display_value ++ "' in " ++ ty ++ " field")
                  | _ => Some ("Typed '" ++ display_value ++ "'")
                  end
              end
          | None => Some ("Typed '" ++ display_value ++ "'")
          end
      | _ => Some "Typed in input field"
      end
  | focus =>
      match target event with
      | Some t =>
          match dict_get "data-testid" (attributes t) with
          | Some (String _ _ as tid) => Some ("Focused on " ++ tid)
          | _ =>
              match target_type t with
              | Some (String _ _ as ty) => Some ("Focused on " ++ ty ++ " input field")
              | _ => Some "Focused on input field"
              end
          end
      | None => Some "Focused on input field"
      end
  | blur => Some "Left input field"
  | scroll =>
      (* a ScrollPosition model object is always truthy *)
      match scrollPosition (metadata event) with
      | Some p =>
          Some ("Scrolled to position (" ++ str_float (x p) ++ ", "
                ++ str_float (y p) ++ ")")
      | None => Some "Scrolled page"
      end
  | step_change => Some "Page/UI state changed"
  end.

(** The description lines that [_build_step_context] emits for the events of
    one step (the header line apart): an event contributes a line exactly
    when its description is truthy. *)
Fixpoint step_event_lines (evs : list InteractionEvent) : list string :=
  match evs with
  | [] => []
  | event :: evs' =>
      match _describe_event event with
      | Some (String _ _ as d) =>
          ("  [" ++ fmt_seconds (timestamp event) ++ "s] " ++ d)
            :: step_event_lines evs'
      | _ => step_event_lines evs'
      end
  end.

(** The narrative lines of [build_rag_context_from_events] that describe
    events: those of every step, in step order. *)
Definition narrative_event_lines (evs : list InteractionEvent) : list string :=
  flat_map (fun st => step_event_lines (events st)) (_group_events_into_steps evs).

End Describe.

End RagService.

(** [convert_event_to_instruction] of [dom_event_service.py], reduced to its
    decision: [None] when the event is skipped, otherwise the instruction's
    [timestamp] and [action]. *)
Module DomEventInstruction.

Definition convert_event_to_instruction (event : InteractionEvent)
  : option (Z * EventType) :=
  let skip :=
    match type event, scrollPosition (metadata event) with
    | scroll, Some p =>
        PrimFloat.eqb (y p) 0%float && PrimFloat.eqb (x p) 0%float
    | _, _ => false
    end in
  if skip then None else Some (timestamp event, type event).

End DomEventInstruction.

(* ------------------------------------------------------------------ *)
(** ** [app/services/script_generation_service.py]: [analyze_word_timings] *)

Module TimingAnalyzer.
(* Python's literals 0.3 and 0.8 denote the nearest binary64 values, as here. *)
Local Set Warnings "-inexact-float".

(** A Deepgram word dictionary; an absent key is [None] and is read through
    [.get(key, default)]. *)
Record Word := {
  word : option string;
  punctuated_word : option string;
  start : option float;
  end_ : option float;
  confidence : option float }.

Definition get_str (o : option string) (d : string) : string :=
  match o with Some s => s | None => d end.
Definition get_num (o : option float) (d : float) : float :=
  match o with Some f => f | None => d end.

Inductive GapType := minor | natural | major.

Record Gap := {
  after_word : string;
  before_word : string;
  gap_start : float;
  gap_end : float;
  duration : float;
  gap_position : nat;
  gap_type : GapType }.

Record LowConfidenceWord := {
  lc_word : string;
  lc_punctuated_word : string;
  lc_confidence : float;
  lc_position : nat;
  lc_start : float }.

Record FillerWord := {
  fw_word : string;
  fw_position : nat;
  fw_start : float;
  fw_type : option string }.

Record Segment := {
  seg_start : float;
  seg_end : float;
  seg_words : list Word;
  word_count : option nat }.

(** The result dictionary; [total_words] and [num_gaps] are absent from the
    dictionary returned for an empty word list. *)
Record TimingAnalysis := {
  total_duration : float;
  total_words : option nat;
  gaps : list Gap;
  average_gap : float;
  speaking_segments : list Segment;
  num_gaps : option nat;
  low_confidence_words : list LowConfidenceWord;
  filler_words : list FillerWord;
  speaking_rate : float;
  has_timing_data : bool }.

Definition FILLER_PATTERNS : list string :=
  ["um"; "uh"; "like"; "you know"; "so"; "well"; "actually"; "basically"]%string.

(** The loop state: the lists built so far and [current_segment]. *)
Record LoopState := {
  st_gaps : list Gap;
  st_segments : list Segment;
  st_low : list LowConfidenceWord;
  st_fillers : list FillerWord;
  st_current : option Segment }.

(** One iteration of [for i in range(len(words) - 1)], on
    [current = words[i]] and [next_word = words[i + 1]]. *)
Definition loop_body (i : nat) (current next_word : Word) (st : LoopState)
  : LoopState :=
  let current_end := get_num (end_ current) 0 in
  let next_start := get_num (start next_word) 0 in
  let gap_duration := (next_start - current_end)%float in
  (* Detect low confidence words *)
  let low :=
    if PrimFloat.ltb (get_num (confidence current) 1.0) 0.8 then
      st_low st ++
        [{| lc_word := get_str (word current) "";
            lc_punctuated_word := get_str (punctuated_word current) "";
            lc_confidence := get_num (confidence current) 0;
            lc_position := i;
            lc_start := get_num (start current) 0 |}]
    else st_low st in
  (* Detect filler words *)
  let word_lower := lower (get_str (word current) "") in
  let fillers :=
    if existsb (String.eqb word_lower) FILLER_PATTERNS then
      st_fillers st ++
        [{| fw_word := get_str (word current) ""; fw_position := i;
            fw_start := get_num (start current) 0; fw_type := None |}]
    else st_fillers st in
  (* Detect repetitions *)
  let fillers :=
    if String.eqb (get_str (word current) "") (get_str (word next_word) "") then
      fillers ++
        [{| fw_word := (get_str (word current) "" ++ " (repeated)")%string;
            fw_position := i; fw_start := get_num (start current) 0;
            fw_type := Some "repetition"%string |}]
    else fillers in
  if fgt gap_duration 0.3 then
    let gap_type :=
      if fgt gap_duration 0.8 then major
      else if fgt gap_duration 0.5 then natural else minor in
    let g := {| after_word := get_str (punctuated_word current)
                                      (get_str (word current) "");
                before_word := get_str (punctuated_word next_word)
                                       (get_str (word next_word) "");
                gap_start := current_end; gap_end := next_start;
                duration := gap_duration; gap_position := i;
                gap_type := gap_type |} in
    (* End current speaking segment *)
    let '(segs, cur) :=
      match st_current st with
      | Some seg =>
          (st_segments st ++
             [{| seg_start := seg_start seg; seg_end := current_end;
                 seg_words := seg_words seg;
                 word_count := Some (length (seg_words seg)) |}], None)
      | None => (st_segments st, None)
      end in
    {| st_gaps := st_gaps st ++ [g]; st_segments := segs; st_low := low;
       st_fillers := fillers; st_current := cur |}
  else
    (* Continue or start speaking segment *)
    let seg :=
      match st_current st with
      | Some seg => seg
      | None => {| seg_start := get_num (start current) 0; seg_end := current_end;
                   seg_words := []; word_count := None |}
      end in
    {| st_gaps := st_gaps st; st_segments := st_segments st; st_low := low;
       st_fillers := fillers;
       st_current := Some {| seg_start := seg_start seg; seg_end := current_end;
                             seg_words := seg_words seg ++ [current];
                             word_count := word_count seg |} |}.

(** The loop over the pairs [(words[i], words[i+1])]; [ws] is the suffix of
    the word list that starts at index [i]. *)
Fixpoint analysis_loop (i : nat) (ws : list Word) (st : LoopState) : LoopState :=
  match ws with
  | current :: ((next_word :: _) as rest) =>
      analysis_loop (S i) rest (loop_body i current next_word st)
  | _ => st
  end.

Definition init_state : LoopState :=
  {| st_gaps := []; st_segments := []; st_low := []; st_fillers := [];
     st_current := None |}.

(** [sum(g["duration"] for g in gaps)] *)
Definition sum_durations (gs : list Gap) : float :=
  fold_left (fun acc g => (acc + duration g)%float) gs 0%float.

Definition analyze_word_timings (words : list Word) : PyResult TimingAnalysis :=
  match words with
  | [] =>
      Ok {| total_duration := 0; total_words := None; gaps := [];
            average_gap := 0; speaking_segments := []; num_gaps := None;
            low_confidence_words := []; filler_words := [];
            speaking_rate := 0; has_timing_data := false |}
  | first :: _ =>
      let st := analysis_loop 0 words init_state in
      let last := last words first in
      (* Add final segment *)
      let segments :=
        match st_current st with
        | Some seg =>
            st_segments st ++
              [{| seg_start := seg_start seg; seg_end := get_num (end_ last) 0;
                  seg_words := seg_words seg;
                  word_count := Some (length (seg_words seg)) |}]
        | None => st_segments st
        end in
      (* Calculate statistics *)
      let total_duration := (get_num (end_ last) 0 - get_num (start first) 0)%float in
      average_gap <-
        (match st_gaps st with
         | [] => Ok 0%float
         | _ :: _ => fdiv_int (sum_durations (st_gaps st)) (length (st_gaps st))
         end) ;;
      speaking_rate <-
        (if fgt total_duration 0 then fdiv (float_of_nat (length words)) total_duration
         else Ok 0%float) ;;
      Ok {| total_duration := total_duration;
            total_words := Some (length words);
            gaps := st_gaps st;
            average_gap := average_gap;
            speaking_segments := segments;
            num_gaps := Some (length (st_gaps st));
            low_confidence_words := st_low st;
            filler_words := st_fillers st;
            speaking_rate := speaking_rate;
            has_timing_data := true |}
  end.

End TimingAnalyzer.

(* ------------------------------------------------------------------ *)
(** ** The regular-expression rewrites of the text normalisers *)

Module TextRegex.

Definition is_char (a : ascii) (c : ascii) : bool := Ascii.eqb c a.

(** [re.sub(r"\*\*", "", s)]: pairs of asterisks, left to right. *)
Fixpoint remove_double_star (s : pystr) : pystr :=
  match s with
  | c :: ((d :: s'') as s') =>
      if is_char "*" c && is_char "*" d then remove_double_star s''
      else c :: remove_double_star s'
  | _ => s
  end.

(** [re.sub(r"\*", "", s)] *)
Definition remove_star (s : pystr) : pystr := filter (fun c => negb (is_char "*" c)) s.

(** [s.replace("\n", " ")] *)
Definition replace_newline (s : pystr) : pystr :=
  map (fun c => if is_char "010" c then sp else c) s.

(** [re.sub(r"\s+", " ", s)]; [in_run] holds inside a run of whitespace
    that has already been replaced by one space. *)
Fixpoint collapse_ws (in_run : bool) (s : pystr) : pystr :=
  match s with
  | [] => []
  | c :: s' =>
      if is_space c then
        if in_run then collapse_ws true s' else sp :: collapse_ws true s'
      else c :: collapse_ws false s'
  end.

Definition is_punct (c : ascii) : bool :=
  is_char "." c || is_char "," c || is_char "!" c || is_char "?" c.

(** [re.sub(r"\s+([.,!?])", r"\1", s)]; [pending] is the run of whitespace
    read since the last other character: it is dropped when the run ends at a
    punctuation mark and kept otherwise. *)
Fixpoint fix_punct_spacing (pending : pystr) (s : pystr) : pystr :=
  match s with
  | [] => pending
  | c :: s' =>
      if is_space c then fix_punct_spacing (pending ++ [c]) s'
      else if is_punct c then c :: fix_punct_spacing [] s'
      else pending ++ c :: fix_punct_spacing [] s'
  end.

End TextRegex.
Import TextRegex.

(* ------------------------------------------------------------------ *)
(** ** Output normalisation *)

Module ScriptClean.

(** [_clean_script_output] of [script_generation_service.py], on the
    characters of the text. *)
Definition clean_script_chars (text : pystr) : pystr :=
  match text with
  | [] => []
  | _ :: _ =>
      let text := remove_double_star text in
      let text := remove_star text in
      let text := replace_newline text in
      let text := collapse_ws false text in
      let text := fix_punct_spacing [] text in
      strip text
  end.

Definition _clean_script_output (text : string) : string :=
  string_of_list_ascii (clean_script_chars (list_ascii_of_string text)).

(** [clean_output] of [synced_narration_service.py] and of
    [gemini_service.py] (the two are the same code). *)
Definition clean_output_chars (text : pystr) : pystr :=
  match text with
  | [] => []
  | _ :: _ =>
      let text := replace_newline text in
      let text := collapse_ws false text in
      let text := fix_punct_spacing [] text in
      strip text
  end.

Definition clean_output (text : string) : string :=
  string_of_list_ascii (clean_output_chars (list_ascii_of_string text)).

End ScriptClean.

(* ------------------------------------------------------------------ *)
(** ** [app/services/script_generation_service.py]: [generate_product_script] *)

Module ScriptGeneration.
Import TimingAnalyzer.

Record TimingSummary := {
  sum_total_duration : float;
  sum_total_words : nat;
  sum_speaking_rate : float;
  sum_num_gaps : nat;
  sum_average_gap : float;
  num_filler_words : nat;
  num_low_confidence : nat;
  sum_has_timing_data : bool }.

(** The returned dictionary; the keys that the failure dictionary lacks are
    [None]. *)
Record ScriptResult := {
  script : string;
  raw_text : string;
  timing_analysis : option TimingSummary;
  dom_context_used : option bool;
  session_id : option (option string);
  success : bool;
  error : option string }.

(** [d[key]] on a key that may be absent. *)
Definition required {A} (key : string) (o : option A) : PyResult A :=
  match o with Some a => Ok a | None => Raise (KeyError key) end.

Section Generate.

(** The text-building helpers, total on well-typed input:
    [build_timing_context], [build_rag_context_from_events],
    [_format_timeline (build_timeline_context events)],
    [extract_ui_elements_summary] and the prompt template with its
    backslash escaping (arguments: raw text, timing context, DOM context,
    timeline context, UI elements). *)
Variable build_timing_context : TimingAnalysis -> string.
Variable build_rag_context_from_events : RecordingSession -> string.
Variable format_timeline : list InteractionEvent -> string.
Variable extract_ui_elements_summary : list InteractionEvent -> string.
Variable make_prompt : string -> string -> string -> string -> string -> string.

(** [model.generate_content(prompt).text]: the external text generation,
    which may raise. *)
Variable generate_content : string -> PyResult string.

Definition generate_product_script (raw_text : string) (word_timings : list Word)
    (session : option RecordingSession) : PyResult ScriptResult :=
  (* 1. Analyze word timings *)
  timing_analysis <- analyze_word_timings word_timings ;;
  let timing_context := build_timing_context timing_analysis in
  (* 2. Build RAG context from DOM events (if available) *)
  let has_events :=
    match session with
    | Some s => match session_events s with [] => false | _ :: _ => true end
    | None => false
    end in
  let '(dom_context, timeline_context, ui_elements) :=
    match session with
    | Some s =>
        if has_events then
          (build_rag_context_from_events s, format_timeline (session_events s),
           extract_ui_elements_summary (session_events s))
        else (""%string, ""%string, ""%string)
    | None => (""%string, ""%string, ""%string)
    end in
  (* 3. Build the prompt *)
  let prompt := make_prompt raw_text timing_context dom_context
                            timeline_context ui_elements in
  (* 4. Generate script with Gemini *)
  try_except
    (text <- generate_content prompt ;;
     let script := ScriptClean._clean_script_output text in
     total_words <- required "total_words" (total_words timing_analysis) ;;
     num_gaps <- required "num_gaps" (num_gaps timing_analysis) ;;
     Ok {| script := script;
           raw_text := raw_text;
           timing_analysis :=
             Some {| sum_total_duration := total_duration timing_analysis;
                     sum_total_words := total_words;
                     sum_speaking_rate := speaking_rate timing_analysis;
                     sum_num_gaps := num_gaps;
                     sum_average_gap := average_gap timing_analysis;
                     num_filler_words := length (filler_words timing_analysis);
                     num_low_confidence := length (low_confidence_words timing_analysis);
                     sum_has_timing_data := has_timing_data timing_analysis |};
           dom_context_used := Some has_events;
           session_id := Some (option_map sessionId session);
           success := true;
           error := None |})
    (fun e =>
       Ok {| script := ("Error generating script: " ++ str_exn e)%string;
             raw_text := raw_text;
             timing_analysis := None;
             dom_context_used := None;
             session_id := None;
             success := false;
             error := Some (str_exn e) |}).

End Generate.

End ScriptGeneration.

(* ------------------------------------------------------------------ *)
(** ** [app/services/elevenlabs_service.py] *)

Module ElevenLabsService.

Definition MAX_RETRIES : nat := 3.
Definition RETRY_DELAY : nat := 1.
Definition MAX_CHUNK_SIZE : nat := 1500.

Definition is_sentence_end (c : ascii) : bool :=
  is_char "." c || is_char "!" c || is_char "?" c.

(** The scanner of [re.split(r'(?<=[.!?])\s+', s)]: [SPrev p] reads with
    [p] the previous character ([None] at the start of the text); [SSkip]
    is inside a run of whitespace consumed by a match. *)
Inductive split_state := SSkip | SPrev (prev : option ascii).

(** Add a character in front of the first piece. *)
Definition cons_head (c : ascii) (pieces : list pystr) : list pystr :=
  match pieces with
  | p :: ps => (c :: p) :: ps
  | [] => [[c]]
  end.

(** The pieces of [re.split]; the first one is the rest of the piece being
    read. *)
Fixpoint re_split (st : split_state) (s : pystr) : list pystr :=
  match s with
  | [] => [[]]
  | c :: s' =>
      match st with
      | SSkip =>
          if is_space c then re_split SSkip s'
          else cons_head c (re_split (SPrev (Some c)) s')
      | SPrev p =>
          let after_end := match p with Some q => is_sentence_end q | None => false end in
          if is_space c && after_end then [] :: re_split SSkip s'
          else cons_head c (re_split (SPrev (Some c)) s')
      end
  end.

Definition nonblank (s : pystr) : bool :=
  match strip s with [] => false | _ :: _ => true end.

Definition chunk_by_sentence (text : pystr) : list pystr :=
  let sentences := re_split (SPrev None) (strip text) in
  map strip (filter nonblank sentences).

(** The [for sentence in sentences] loop of [chunk_text_for_tts]. *)
Fixpoint pack_loop (max_size : nat) (chunks : list pystr) (current_chunk : pystr)
    (sentences : list pystr) : list pystr * pystr :=
  match sentences with
  | [] => (chunks, current_chunk)
  | sentence :: rest =>
      if length current_chunk + length sentence + 1 <=? max_size then
        pack_loop max_size chunks (strip (current_chunk ++ sp :: sentence)) rest
      else
        pack_loop max_size
          (match current_chunk with [] => chunks | _ :: _ => chunks ++ [current_chunk] end)
          sentence rest
  end.

Definition chunk_text_for_tts (text : pystr) (max_size : nat) : list pystr :=
  let sentences := chunk_by_sentence text in
  let '(chunks, current_chunk) := pack_loop max_size [] [] sentences in
  let chunks :=
    match current_chunk with [] => chunks | _ :: _ => chunks ++ [current_chunk] end in
  match chunks with [] => [text] | _ :: _ => chunks end.

Definition ensure_sentence_endings (text : pystr) : pystr :=
  let txt := strip (collapse_ws false text) in
  match txt with
  | [] => txt
  | c :: _ => if is_sentence_end (last txt c) then txt else txt ++ ["."%char]
  end.

(** The texts that [generate_voice_from_text] sends to [_generate_single_chunk],
    in order (after its API-key check): none for a blank text, the
    normalised text when it fits in one request, its chunks otherwise. *)
Definition tts_chunk_plan (text : pystr) : list pystr :=
  match strip text with
  | [] => []
  | _ :: _ =>
      let t := ensure_sentence_endings text in
      if length t <=? MAX_CHUNK_SIZE then [t] else chunk_text_for_tts t MAX_CHUNK_SIZE
  end.

(** The parts of a [requests] response that [_generate_single_chunk] reads. *)
Record Response := {
  ok : bool;
  status_code : Z;
  resp_text : string;
  content : list byte }.

(** Observable steps of the retry loop: a request of attempt [n], a sleep. *)
Inductive TraceEvent := Post (attempt : nat) | Sleep (seconds : nat).

(** The body of the [try] block of one attempt, given what [session.post]
    returned or raised. *)
Definition attempt_once (posted : PyResult Response) : PyResult (list byte) :=
  resp <- posted ;;
  if negb (ok resp) then
    let error_detail :=
      match resp_text resp with
      | EmptyString => "No error details"%string
      | t => take_str 200 t
      end in
    Raise (RuntimeError ("Deepgram TTS error " ++ str_Z (status_code resp) ++ ": "
                         ++ error_detail)%string)
  else
    let audio_bytes := content resp in
    if length audio_bytes <? 100 then
      Raise (RuntimeError ("Audio response too small: " ++ str_nat (length audio_bytes)
                           ++ " bytes")%string)
    else Ok audio_bytes.

(** [for attempt in range(1, MAX_RETRIES + 1)]; [post n] is the outcome of
    the request of attempt [n].  The result is the audio, or the loop's
    [last_error] once the attempts are exhausted. *)
Fixpoint retry_loop (fuel attempt : nat) (post : nat -> PyResult Response)
    (last_error : option exn) : list TraceEvent * (list byte + option exn) :=
  match fuel with
  | O => ([], inr last_error)
  | S fuel' =>
      match attempt_once (post attempt) with
      | Ok audio_bytes => ([Post attempt], inl audio_bytes)
      | Raise e =>
          let tr := if attempt <? MAX_RETRIES
                    then [Post attempt; Sleep (RETRY_DELAY * attempt)]
                    else [Post attempt] in
          let '(tr', r) := retry_loop fuel' (S attempt) post (Some e) in
          (tr ++ tr', r)
      end
  end.

(** The exception raised once the attempts are exhausted. *)
Definition final_error (last_error : option exn) : exn :=
  let error_msg := match last_error with Some e => str_exn e | None => "None"%string end in
  if contains "timeout" (lower error_msg) then
    RuntimeError ("Deepgram TTS timeout after " ++ str_nat MAX_RETRIES
                  ++ " attempts. API may be slow or unresponsive.")%string
  else if contains "connection" (lower error_msg) then
    RuntimeError ("Cannot connect to Deepgram API after " ++ str_nat MAX_RETRIES
                  ++ " attempts. Check network connectivity.")%string
  else
    match last_error with
    | Some e => e
    | None => OtherExc "exceptions must derive from BaseException"%string
    end.

Definition _generate_single_chunk (post : nat -> PyResult Response)
  : list TraceEvent * PyResult (list byte) :=
  let '(tr, r) := retry_loop MAX_RETRIES 1 post None in
  match r with
  | inl audio_bytes => (tr, Ok audio_bytes)
  | inr last_error => (tr, Raise (final_error last_error))
  end.

End ElevenLabsService.

(* ------------------------------------------------------------------ *)
(** ** Shapes of normalised text *)

Module TextInvariants.

(** [P] holds of every two adjacent characters. *)
Fixpoint pairs_ok (P : ascii -> ascii -> bool) (s : pystr) : bool :=
  match s with
  | a :: ((b :: _) as s') => P a b && pairs_ok P s'
  | _ => true
  end.

Definition starts_ok (s : pystr) : bool :=
  match s with c :: _ => negb (is_space c) | [] => true end.
Definition ends_ok (s : pystr) : bool := starts_ok (rev s).

Definition no_double_space (a b : ascii) : bool := negb (is_space a && is_space b).
Definition no_space_before (a b : ascii) : bool :=
  negb (is_space a && (is_space b || is_punct b)).
Definition space_is_sp (c : ascii) : bool := negb (is_space c) || Ascii.eqb c sp.
Definition not_star (c : ascii) : bool := negb (is_char "*" c).

(** The shape of the output of [clean_output]: whitespace is single spaces,
    none before [.,!?], none at either end. *)
Definition cleaned (s : pystr) : bool :=
  forallb space_is_sp s && pairs_ok no_space_before s && starts_ok s && ends_ok s.

(** Text whose whitespace is single spaces between other characters. *)
Definition single_spaced (s : pystr) : bool :=
  forallb space_is_sp s && pairs_ok no_double_space s && starts_ok s && ends_ok s.

End TextInvariants.

(* ------------------------------------------------------------------ *)
(** ** [dom_event_service.py]: [process_dom_events],
    [convert_event_to_instruction] and [extract_text_from_events] *)

Module DomEventProcessing.
Local Open Scope string_scope.
Local Set Warnings "-inexact-float".

(** The [target] dictionary that [convert_event_to_instruction] attaches. *)
Record TargetDict := {
  td_tag : string;
  td_id : option string;
  td_classes : list string;
  td_text : option string;
  td_type : option string;
  td_name : option string;
  td_attributes : list (string * string) }.

(** [FrontendInstruction]; its fields carry an [fi_] prefix where
    [InteractionEvent] and [EventTarget] already use the name. *)
Record FrontendInstruction := {
  fi_timestamp : Z;
  action : EventType;
  fi_target : option TargetDict;
  fi_value : option string;
  fi_bbox : option BoundingBox;
  fi_selector : option string;
  fi_confidence : float }.

(** The [metadata] dictionary of the response. *)
Record ProcessMetadata := {
  totalEvents : nat;
  instructionsGenerated : nat;
  duration : Z;
  md_url : string }.

Record ProcessRecordingResponse := {
  resp_sessionId : string;
  instructions : list FrontendInstruction;
  resp_metadata : ProcessMetadata }.

(** The skip test of [convert_event_to_instruction]: a scroll event whose
    position (a model object, always truthy) is [y == 0 and x == 0]. *)
Definition is_zero_scroll (event : InteractionEvent) : bool :=
  match type event, scrollPosition (metadata event) with
  | scroll, Some p => PrimFloat.eqb (y p) 0%float && PrimFloat.eqb (x p) 0%float
  | _, _ => false
  end.

Definition convert_event_to_instruction (event : InteractionEvent)
  : option FrontendInstruction :=
  if is_zero_scroll event then None
  else
    Some {| fi_timestamp := timestamp event;
            action := type event;
            fi_value := value event;
            fi_selector := option_map selector (target event);
            fi_bbox := option_map bbox (target event);
            fi_confidence := 1.0;
            fi_target :=
              option_map
                (fun t => {| td_tag := tag t; td_id := target_id t;
                             td_classes := classes t; td_text := text t;
                             td_type := target_type t; td_name := name t;
                             td_attributes := attributes t |})
                (target event) |}.

(** The [for event in session.events] loop: an instruction (a model object,
    always truthy) is appended whenever one is returned. *)
Fixpoint collect_instructions (evs : list InteractionEvent) : list FrontendInstruction :=
  match evs with
  | [] => []
  | event :: evs' =>
      match convert_event_to_instruction event with
      | Some instruction => instruction :: collect_instructions evs'
      | None => collect_instructions evs'
      end
  end.

Definition process_dom_events (session : RecordingSession) : ProcessRecordingResponse :=
  let instructions := collect_instructions (session_events session) in
  {| resp_sessionId := sessionId session;
     instructions := instructions;
     resp_metadata :=
       {| totalEvents := length (session_events session);
          instructionsGenerated := length instructions;
          duration := (session_endTime session - session_startTime session)%Z;
          md_url := session_url session |} |}.

(** The text part that one event contributes, if any. *)
Definition text_part (event : InteractionEvent) : option string :=
  match type event with
  | click =>
      match target event with
      | Some t =>
          match text t with
          | Some (String _ _ as s) => Some ("Clicked: " ++ s)
          | _ => None
          end
      | None => None
      end
  | type_ =>
      match value event with
      | Some (String _ _ as v) => Some ("Typed: " ++ v)
      | _ => None
      end
  | focus =>
      match target event with
      | Some t =>
          match text t with
          | Some (String _ _ as s) => Some ("Focused: " ++ s)
          | _ =>
              match dict_get "data-testid" (attributes t) with
              | Some (String _ _ as tid) => Some ("Focused: " ++ tid)
              | _ => None
              end
          end
      | None => None
      end
  | _ => None
  end.

Fixpoint text_parts (evs : list InteractionEvent) : list string :=
  match evs with
  | [] => []
  | event :: evs' =>
      match text_part event with
      | Some p => p :: text_parts evs'
      | None => text_parts evs'
      end
  end.

(** [" ".join(text_parts)] *)
Definition extract_text_from_events (evs : list InteractionEvent) : string :=
  String.concat " " (text_parts evs).

End DomEventProcessing.

(* ------------------------------------------------------------------ *)
(** ** [rag_service.py]: the timeline, the UI summary and the context text *)

Module RagContext.
Import RagService.
Local Open Scope string_scope.

Definition nl_str : string := String "010"%char EmptyString.

(** Python's [<] on strings: code points compared from the left, a proper
    prefix first. *)
Fixpoint str_ltb (a b : string) : bool :=
  match a, b with
  | EmptyString, String _ _ => true
  | _, EmptyString => false
  | String c a', String d b' =>
      if Nat.ltb (nat_of_ascii c) (nat_of_ascii d) then true
      else if Nat.eqb (nat_of_ascii c) (nat_of_ascii d) then str_ltb a' b'
      else false
  end.

(** [set.add] on a set kept as a list without duplicates. *)
Definition set_add (s : string) (elements : list string) : list string :=
  if existsb (String.eqb s) elements then elements else elements ++ [s].

(** [sorted] by insertion. *)
Fixpoint insert_sorted (s : string) (l : list string) : list string :=
  match l with
  | [] => [s]
  | h :: l' => if str_ltb s h then s :: l else h :: insert_sorted s l'
  end.
Definition sorted (l : list string) : list string := fold_right insert_sorted [] l.

(** The three [if] statements of the loop body of
    [extract_ui_elements_summary]. *)
Definition add_target_elements (elements : list string) (event : InteractionEvent)
  : list string :=
  match target event with
  | Some t =>
      let elements :=
        match text t with Some (String _ _ as s) => set_add s elements | _ => elements end in
      let elements :=
        match dict_get "data-testid" (attributes t) with
        | Some (String _ _ as s) => set_add s elements | _ => elements end in
      match dict_get "aria-label" (attributes t) with
      | Some (String _ _ as s) => set_add s elements | _ => elements end
  | None => elements
  end.

Definition extract_ui_elements_summary (evs : list InteractionEvent) : string :=
  let elements := fold_left add_target_elements evs [] in
  match elements with
  | [] => "UI Elements: (none identified)"
  | _ :: _ => "UI Elements: " ++ String.concat ", " (sorted elements)
  end.

Definition is_significant (event : InteractionEvent) : bool :=
  match type event with click | type_ | step_change => true | _ => false end.

Record TimelineItem := {
  ti_timestamp : Z;
  timestamp_seconds : float;
  ti_action : EventType;
  ti_description : option string }.

Record Timeline := {
  total_events : nat;
  significant_events : nat;
  timeline : list TimelineItem }.

Section Formats.

(** Python's float conversions: [str_float x] is [f"{x}"], [fmt_1f x] is
    [f"{x:.1f}"], [ms_to_seconds ms] is [ms / 1000.0] and [ms_div_1000 ms]
    is [ms / 1000], for an int [ms]. *)
Variable str_float : float -> string.
Variable fmt_1f : float -> string.
Variable ms_to_seconds : Z -> float.
Variable ms_div_1000 : Z -> float.

Definition build_timeline_context (evs : list InteractionEvent) : Timeline :=
  let tl :=
    map (fun event =>
           {| ti_timestamp := timestamp event;
              timestamp_seconds := ms_to_seconds (timestamp event);
              ti_action := type event;
              ti_description := _describe_event str_float event |})
        (filter is_significant evs) in
  {| total_events := length evs; significant_events := length tl; timeline := tl |}.

(** [_format_timeline] (the same code in [script_generation_service.py] and
    [synced_narration_service.py]); [f"{None}"] is ["None"]. *)
Definition _format_timeline (t : Timeline) : string :=
  match timeline t with
  | [] => "No significant actions recorded."
  | items =>
      String.concat nl_str
        (map (fun item =>
                "  " ++ fmt_1f (timestamp_seconds item) ++ "s: "
                ++ match ti_description item with Some d => d | None => "None" end)
             items)
  end.

Definition _build_step_context (step_num : nat) (step : Step) : string :=
  let dur := ms_to_seconds (endTime step - startTime step)%Z in
  String.concat nl_str
    (("Step " ++ str_nat step_num ++ " (Duration: " ++ fmt_1f dur ++ "s):")
       :: step_event_lines str_float (fun ms => fmt_1f (ms_to_seconds ms)) (events step)).

Fixpoint step_blocks (step_num : nat) (steps : list Step) : list string :=
  match steps with
  | [] => []
  | step :: steps' => _build_step_context step_num step :: "" :: step_blocks (S step_num) steps'
  end.

Definition build_rag_context_from_events (session : RecordingSession) : string :=
  String.concat nl_str
    (app ["Recording Session: " ++ sessionId session;
      "URL: " ++ session_url session;
      "Duration: " ++ fmt_1f (ms_div_1000 (session_endTime session - session_startTime session))
        ++ " seconds";
      ""]
     (step_blocks 1 (_group_events_into_steps (session_events session)))).

End Formats.

End RagContext.

(* ------------------------------------------------------------------ *)
(** ** [synced_narration_service.py]: [_parse_steps] *)

Module StepParser.

Definition nl : ascii := "010"%char.

(** [s.split("\n")] *)
Fixpoint split_nl (s : pystr) : list pystr :=
  match s with
  | [] => [[]]
  | c :: s' =>
      if Ascii.eqb c nl then [] :: split_nl s'
      else ElevenLabsService.cons_head c (split_nl s')
  end.

(** [s.startswith(p)] *)
Fixpoint starts_with (p s : pystr) : bool :=
  match p, s with
  | [], _ => true
  | a :: p', b :: s' => Ascii.eqb a b && starts_with p' s'
  | _ :: _, [] => false
  end.

Definition is_digit (c : ascii) : bool :=
  let n := nat_of_ascii c in (48 <=? n) && (n <=? 57).

(** The longest prefix whose characters satisfy [f], and the rest. *)
Fixpoint span (f : ascii -> bool) (s : pystr) : pystr * pystr :=
  match s with
  | c :: s' => if f c then let '(a, b) := span f s' in (c :: a, b) else ([], s)
  | [] => ([], [])
  end.

(** A literal matched under [re.IGNORECASE] ([p] in lower case); the rest. *)
Fixpoint match_ci (p s : pystr) : option pystr :=
  match p, s with
  | [], _ => Some s
  | a :: p', c :: s' => if Ascii.eqb (lower_char c) a then match_ci p' s' else None
  | _ :: _, [] => None
  end.

(** [(.+)] at the end of the pattern: every character up to the first
    newline, at least one. *)
Definition dotplus (s : pystr) : option pystr :=
  match span (fun c => negb (Ascii.eqb c nl)) s with
  | ([], _) => None
  | (g, _) => Some g
  end.

(** [\s*(.+)] with the greedy [\s*] backtracking one character at a time. *)
Fixpoint ws_dotplus (s : pystr) : option pystr :=
  match s with
  | c :: s' =>
      if is_space c then
        match ws_dotplus s' with Some g => Some g | None => dotplus s end
      else dotplus s
  | [] => None
  end.

(** [re.match(r"Step\s+(\d+):\s*(.+)", line, re.IGNORECASE)]: the two
    groups.  [\s+] is followed by a digit and [\d+] by [:], neither of
    which the repeated class accepts, so both runs are maximal. *)
Definition match_step (line : pystr) : option (pystr * pystr) :=
  match match_ci (list_ascii_of_string "step") line with
  | None => None
  | Some r1 =>
      let '(ws, r2) := span is_space r1 in
      match ws with
      | [] => None
      | _ :: _ =>
          let '(ds, r3) := span is_digit r2 in
          match ds, r3 with
          | _ :: _, c :: r4 =>
              if Ascii.eqb c ":" then option_map (fun g => (ds, g)) (ws_dotplus r4)
              else None
          | _, _ => None
          end
      end
  end.

(** [int(digits)] *)
Definition parse_int (ds : pystr) : nat :=
  fold_left (fun n c => n * 10 + (nat_of_ascii c - 48)) ds 0.

Record ParsedStep := { step_number : nat; narration : pystr }.

(** [steps[-1]["narration"] += extra] *)
Fixpoint append_last (steps : list ParsedStep) (extra : pystr) : list ParsedStep :=
  match steps with
  | [] => []
  | [s] => [{| step_number := step_number s; narration := narration s ++ extra |}]
  | s :: steps' => s :: append_last steps' extra
  end.

Fixpoint parse_loop (steps : list ParsedStep) (lines : list pystr) : list ParsedStep :=
  match lines with
  | [] => steps
  | line :: rest =>
      let line := strip line in
      match line with
      | [] => parse_loop steps rest
      | _ :: _ =>
          match match_step line with
          | Some (ds, g2) =>
              parse_loop (steps ++ [{| step_number := parse_int ds;
                                       narration := strip g2 |}]) rest
          | None =>
              if negb (starts_with (list_ascii_of_string "Step") line) then
                parse_loop (match steps with
                            | [] => steps
                            | _ :: _ => append_last steps (sp :: line)
                            end) rest
              else parse_loop steps rest
          end
      end
  end.

Definition _parse_steps (narration : pystr) : list ParsedStep :=
  parse_loop [] (split_nl narration).

End StepParser.

(* ------------------------------------------------------------------ *)
(** ** [script_generation_service.py]: [build_timing_context] *)

Module TimingContext.
Import TimingAnalyzer ScriptGeneration.
Local Open Scope string_scope.

(** U+2192 (rightwards arrow) in UTF-8. *)
Definition arrow : string :=
  String "226"%char (String "134"%char (String "146"%char EmptyString)).

Definition gap_type_str (g : GapType) : string :=
  match g with minor => "minor" | natural => "natural" | major => "major" end.

Section Formats.

(** [fmt_1f x] is [f"{x:.1f}"] and [fmt_2f x] is [f"{x:.2f}"]. *)
Variable fmt_1f : float -> string.
Variable fmt_2f : float -> string.

Fixpoint gap_lines (i : nat) (gs : list Gap) : list string :=
  match gs with
  | [] => []
  | gap :: gs' =>
      ("  Gap " ++ str_nat i ++ " (" ++ gap_type_str (gap_type gap) ++ "): after '"
       ++ after_word gap ++ "' " ++ arrow ++ " before '" ++ before_word gap ++ "' ("
       ++ fmt_2f (duration gap) ++ "s at " ++ fmt_1f (gap_start gap) ++ "s)")
      :: gap_lines (S i) gs'
  end.

Definition build_timing_context (ta : TimingAnalysis) : PyResult string :=
  if negb (has_timing_data ta) then Ok "No timing data available."
  else
    total_words <- required "total_words" (total_words ta) ;;
    num_gaps <- required "num_gaps" (num_gaps ta) ;;
    let context_parts :=
      ["Total Duration: " ++ fmt_1f (total_duration ta) ++ " seconds";
       "Total Words: " ++ str_nat total_words;
       "Speaking Rate: " ++ fmt_2f (speaking_rate ta) ++ " words/second";
       "Speaking Segments: " ++ str_nat (length (speaking_segments ta));
       "Identified Gaps: " ++ str_nat num_gaps;
       "Average Gap Duration: " ++ fmt_2f (average_gap ta) ++ " seconds"] in
    let context_parts :=
      app context_parts
        match filler_words ta with
        | [] => []
        | fs =>
            app [""; "Filler Words Detected: " ++ str_nat (length fs)]
              match map (fun f => "'" ++ fw_word f ++ "'") (firstn 5 fs) with
              | [] => []
              | filler_list => ["  Examples: " ++ String.concat ", " filler_list]
              end
        end in
    let context_parts :=
      app context_parts
        match low_confidence_words ta with
        | [] => []
        | ws =>
            app [""; "Low Confidence Words: " ++ str_nat (length ws)]
              match map (fun w => "'" ++ lc_word w ++ "' (" ++ fmt_2f (lc_confidence w) ++ ")")
                        (firstn 3 ws) with
              | [] => []
              | low_conf_list => ["  Examples: " ++ String.concat ", " low_conf_list]
              end
        end in
    let context_parts :=
      app context_parts
        match gaps ta with
        | [] => []
        | gs => app [""; "Significant Pauses/Gaps:"] (gap_lines 1 (firstn 5 gs))
        end in
    Ok (String.concat RagContext.nl_str context_parts).

End Formats.

End TimingContext.

(* ------------------------------------------------------------------ *)
(** ** [elevenlabs_service.py]: [generate_voice_from_text] *)

Module VoiceGeneration.
Import ElevenLabsService.

(** [post i chunk n] is what [session.post] returns or raises for attempt
    [n] of the [i]-th text sent to [_generate_single_chunk]; the trace tags
    each step of the retry loop with [i]. *)
Fixpoint chunk_loop (i : nat) (post : nat -> pystr -> nat -> PyResult Response)
    (chunks : list pystr) (all_audio : list byte)
  : list (nat * TraceEvent) * PyResult (list byte) :=
  match chunks with
  | [] => ([], Ok all_audio)
  | chunk :: chunks' =>
      let '(tr, r) := _generate_single_chunk (post i chunk) in
      let tr := map (pair i) tr in
      match r with
      | Raise e => (tr, Raise e)
      | Ok chunk_audio =>
          let '(tr', r') := chunk_loop (S i) post chunks' (all_audio ++ chunk_audio) in
          (tr ++ tr', r')
      end
  end.

(** [DEEPGRAM_API_KEY] is [os.getenv(...)]: [None] or a string. *)
Definition generate_voice_from_text (DEEPGRAM_API_KEY : option string)
    (post : nat -> pystr -> nat -> PyResult Response) (text : pystr)
  : list (nat * TraceEvent) * PyResult (list byte) :=
  match strip text with
  | [] => ([], Ok [])
  | _ :: _ =>
      if negb (truthy_str DEEPGRAM_API_KEY) then
        ([], Raise (RuntimeError "DEEPGRAM_API_KEY not configured"%string))
      else
        let text := ensure_sentence_endings text in
        if length text <=? MAX_CHUNK_SIZE then
          let '(tr, r) := _generate_single_chunk (post 1 text) in (map (pair 1) tr, r)
        else chunk_loop 1 post (chunk_text_for_tts text MAX_CHUNK_SIZE) []
  end.

End VoiceGeneration.

(* ------------------------------------------------------------------ *)
(** ** [app/models/request_models.py]: [AudioProcessRequest] *)

Module RequestModels.
Local Open Scope string_scope.
Local Set Warnings "-register-all".

(** A value of a [Dict[str, Any]] decoded from JSON. *)
Inductive json :=
| JNone
| JBool (b : bool)
| JInt (z : Z)
| JFloat (f : float)
| JStr (s : string)
| JList (l : list json)
| JDict (d : list (string * json)).

(** Python truthiness. *)
Definition truthy (v : json) : bool :=
  match v with
  | JNone => false
  | JBool b => b
  | JInt z => negb (Z.eqb z 0)
  | JFloat f => negb (PrimFloat.eqb f 0%float)
  | JStr s => negb (String.eqb s "")
  | JList l => match l with [] => false | _ => true end
  | JDict d => match d with [] => false | _ => true end
  end.

(** [d[k]] / [k in d] on a dictionary (keys are unique). *)
Fixpoint dlookup (k : string) (d : list (string * json)) : option json :=
  match d with
  | [] => None
  | (k', v) :: d' => if String.eqb k k' then Some v else dlookup k d'
  end.

Inductive exc := AttributeError | KeyError | IndexError | TypeError (type_name : string).

Inductive Res (A : Type) := ROk (a : A) | RRaise (e : exc).
Arguments ROk {A} a.
Arguments RRaise {A} e.

Definition rbind {A B} (m : Res A) (k : A -> Res B) : Res B :=
  match m with ROk a => k a | RRaise e => RRaise e end.

(** [o.get(k, default)]: only a dictionary has [get]. *)
Definition py_get (o : json) (k : string) (default : json) : Res json :=
  match o with
  | JDict d => ROk (match dlookup k d with Some v => v | None => default end)
  | _ => RRaise AttributeError
  end.

(** [o[0]] *)
Definition index0 (o : json) : Res json :=
  match o with
  | JList (v :: _) => ROk v
  | JList [] => RRaise IndexError
  | JStr (String c _) => ROk (JStr (String c EmptyString))
  | JStr EmptyString => RRaise IndexError
  | JDict _ => RRaise KeyError
  | JNone => RRaise (TypeError "NoneType")
  | JBool _ => RRaise (TypeError "bool")
  | JInt _ => RRaise (TypeError "int")
  | JFloat _ => RRaise (TypeError "float")
  end.

(** The common part of the three [try] blocks: [alternatives[0]] when
    [channels] and [alternatives] are truthy, [None] when the block falls
    through. *)
Definition first_alternative (raw : json) : Res (option json) :=
  rbind (py_get raw "results" (JDict [])) (fun results =>
  rbind (py_get results "channels" (JList [])) (fun channels =>
  if truthy channels then
    rbind (index0 channels) (fun channel =>
    rbind (py_get channel "alternatives" (JList [])) (fun alternatives =>
    if truthy alternatives then
      rbind (index0 alternatives) (fun alt => ROk (Some alt))
    else ROk None))
  else ROk None)).

(** [except (KeyError, IndexError, AttributeError): pass] *)
Definition catch_lookup (r : Res (option json)) : Res (option json) :=
  match r with
  | RRaise (KeyError | IndexError | AttributeError) => ROk None
  | _ => r
  end.

Record AudioProcessRequest := {
  text : string;
  deepgramResponse : option (list (string * json));
  deepgramData : option (list (string * json));
  domEvents : list (list (string * json));
  session : option RecordingSession;
  recordingsPath : string;
  metadata : list (string * json) }.

(** [if d and key in d: return d[key]] on an optional dictionary. *)
Definition new_format (key : string) (o : option (list (string * json))) : option json :=
  match o with
  | Some ((_ :: _) as d) => dlookup key d
  | _ => None
  end.

(** The Node.js path of a property: [extract] is the rest of its [try]
    block, from [alternatives[0]]. *)
Definition node_format (self : AudioProcessRequest) (extract : json -> Res json)
  : Res json :=
  match new_format "raw" (deepgramResponse self) with
  | Some raw =>
      match catch_lookup (rbind (first_alternative raw) (fun a =>
              match a with
              | Some alt => rbind (extract alt) (fun v => ROk (Some v))
              | None => ROk None
              end)) with
      | ROk (Some v) => ROk v
      | ROk None => ROk (JList [])
      | RRaise e => RRaise e
      end
  | None => ROk (JList [])
  end.

Definition words (self : AudioProcessRequest) : Res json :=
  match new_format "words" (deepgramData self) with
  | Some v => ROk v
  | None => node_format self (fun alt => py_get alt "words" (JList []))
  end.

Definition sentences (self : AudioProcessRequest) : Res json :=
  match new_format "sentences" (deepgramData self) with
  | Some v => ROk v
  | None =>
      node_format self (fun alt =>
        rbind (py_get alt "paragraphs" (JDict [])) (fun paragraphs =>
        py_get paragraphs "sentences" (JList [])))
  end.

Definition paragraphs (self : AudioProcessRequest) : Res json :=
  match new_format "paragraphs" (deepgramData self) with
  | Some v => ROk v
  | None =>
      node_format self (fun alt =>
        rbind (py_get alt "paragraphs" (JDict [])) (fun paragraphs_obj =>
        py_get paragraphs_obj "paragraphs" (JList [])))
  end.

End RequestModels.

(* ------------------------------------------------------------------ *)
(** ** [synced_narration_service.py]: the two narration generators *)

Module SyncedNarration.
Import RagContext StepParser.
Local Open Scope string_scope.

Record SyncedResult := {
  synced_narration : string;
  sn_raw_text : string;
  rag_context_used : bool;
  timeline_events : option nat;
  total_dom_events : option nat;
  sn_session_id : option string;
  sn_error : option string }.

Record StepByStepResult := {
  step_by_step : string;
  parsed_steps : option (list ParsedStep);
  sb_raw_text : string;
  sb_rag_context_used : option bool;
  sb_session_id : option string;
  sb_error : option string }.

Section Generate.

Variable str_float : float -> string.
Variable fmt_1f : float -> string.
Variable ms_to_seconds : Z -> float.
Variable ms_div_1000 : Z -> float.
(** The two prompt templates (context, UI summary, timeline text, raw
    text) and the external text generation, which may raise. *)
Variable synced_prompt : string -> string -> string -> string -> string.
Variable step_prompt : string -> string -> string -> string.
Variable generate_content : string -> PyResult string.

Definition generate_synced_narration (raw_text : string) (session : RecordingSession)
  : PyResult SyncedResult :=
  let rag_context := build_rag_context_from_events str_float fmt_1f ms_to_seconds
                       ms_div_1000 session in
  let timeline := build_timeline_context str_float ms_to_seconds (session_events session) in
  let ui_summary := extract_ui_elements_summary (session_events session) in
  let prompt := synced_prompt rag_context ui_summary (_format_timeline fmt_1f timeline)
                  raw_text in
  try_except
    (text <- generate_content prompt ;;
     Ok {| synced_narration := ScriptClean.clean_output text;
           sn_raw_text := raw_text;
           rag_context_used := true;
           timeline_events := Some (significant_events timeline);
           total_dom_events := Some (length (session_events session));
           sn_session_id := Some (sessionId session);
           sn_error := None |})
    (fun e =>
       Ok {| synced_narration := "Error generating synced narration: " ++ str_exn e;
             sn_raw_text := raw_text;
             rag_context_used := true;
             timeline_events := None;
             total_dom_events := None;
             sn_session_id := None;
             sn_error := Some (str_exn e) |}).

Definition generate_step_by_step_narration (raw_text : string) (session : RecordingSession)
  : PyResult StepByStepResult :=
  let rag_context := build_rag_context_from_events str_float fmt_1f ms_to_seconds
                       ms_div_1000 session in
  let timeline := build_timeline_context str_float ms_to_seconds (session_events session) in
  let prompt := step_prompt rag_context (_format_timeline fmt_1f timeline) raw_text in
  try_except
    (text <- generate_content prompt ;;
     let step_narration := strip (list_ascii_of_string text) in
     let steps := _parse_steps step_narration in
     Ok {| step_by_step := string_of_list_ascii step_narration;
           parsed_steps := Some steps;
           sb_raw_text := raw_text;
           sb_rag_context_used := Some true;
           sb_session_id := Some (sessionId session);
           sb_error := None |})
    (fun e =>
       Ok {| step_by_step := "Error: " ++ str_exn e;
             parsed_steps := None;
             sb_raw_text := raw_text;
             sb_rag_context_used := None;
             sb_session_id := None;
             sb_error := Some (str_exn e) |}).

End Generate.

End SyncedNarration.

(* ------------------------------------------------------------------ *)
(** ** Concrete inputs used by the witnesses and counterexamples *)

Module Samples.
Local Open Scope string_scope.
Local Set Warnings "-inexact-float".

Definition sample_metadata (pos : option ScrollPosition) : EventMetadata :=
  {| url := "https://app.example.com/"; viewport := {| width := 1280; height := 720 |};
     scrollPosition := pos |}.

Definition sample_event (t : Z) (ty : EventType) (pos : option ScrollPosition)
  : InteractionEvent :=
  {| timestamp := t; type := ty; target := None; value := None;
     metadata := sample_metadata pos |}.

Definition origin : ScrollPosition := {| x := 0%float; y := 0%float |}.

(** Three clicks at 0, 500 and 3500 ms and a scroll to (0, 0) at 3600 ms. *)
Definition zero_scroll_event : InteractionEvent := sample_event 3600 scroll (Some origin).
Definition scenario_events : list InteractionEvent :=
  [sample_event 0 click None; sample_event 500 click None;
   sample_event 3500 click None; zero_scroll_event].

(** Two printers standing for Python's float formatting. *)
Definition sample_str_float (f : float) : string := "0.0".
Definition sample_fmt_seconds (ms : Z) : string := str_Z (ms / 1000).

(** Word timings. *)
Definition timing_word (w : string) (s e c : float) : TimingAnalyzer.Word :=
  {| TimingAnalyzer.word := Some w; TimingAnalyzer.punctuated_word := None;
     TimingAnalyzer.start := Some s; TimingAnalyzer.end_ := Some e;
     TimingAnalyzer.confidence := Some c |}.

(** [[{start:0,end:1,confidence:0.9},{start:1.5,end:2,confidence:0.9}]] *)
Definition two_words : list TimingAnalyzer.Word :=
  [timing_word "Hello" 0 1 0.9; timing_word "world" 1.5 2 0.9].

(** The same input as written in the example, with no [word] keys. *)
Definition bare_word (s e c : float) : TimingAnalyzer.Word :=
  {| TimingAnalyzer.word := None; TimingAnalyzer.punctuated_word := None;
     TimingAnalyzer.start := Some s; TimingAnalyzer.end_ := Some e;
     TimingAnalyzer.confidence := Some c |}.
Definition example_words : list TimingAnalyzer.Word :=
  [bare_word 0 1 0.9; bare_word 1.5 2 0.9].

(** One word of confidence 0.5. *)
Definition one_low_word : list TimingAnalyzer.Word := [timing_word "hello" 0 1 0.5].

(** One word with [start == end == 0]. *)
Definition zero_word : list TimingAnalyzer.Word := [timing_word "hi" 0 0 0.9].

(** Two request histories: a read timeout, then a 10-byte body, then a
    good response; and three failures ending in a read timeout. *)
Definition good_response : ElevenLabsService.Response :=
  {| ElevenLabsService.ok := true; ElevenLabsService.status_code := 200; ElevenLabsService.resp_text := ""%string;
     ElevenLabsService.content := repeat Byte.x00 120 |}.

Definition post_recovers (n : nat) : PyResult ElevenLabsService.Response :=
  match n with
  | 1 => Raise (TimeoutExc "Read timed out."%string)
  | 2 => Ok {| ElevenLabsService.ok := true; ElevenLabsService.status_code := 200; ElevenLabsService.resp_text := ""%string;
               ElevenLabsService.content := repeat Byte.x00 10 |}
  | _ => Ok good_response
  end.

Definition post_fails (n : nat) : PyResult ElevenLabsService.Response :=
  match n with
  | 1 => Raise (RequestException "Connection aborted."%string)
  | 2 => Ok {| ElevenLabsService.ok := false; ElevenLabsService.status_code := 503; ElevenLabsService.resp_text := "busy"%string;
               ElevenLabsService.content := [] |}
  | _ => Raise (TimeoutExc
                 "HTTPSConnectionPool(host='api.deepgram.com', port=443): Read timed out. (read timeout=60)"%string)
  end.

(** Forty copies of a 44-character sentence, and a text whose second
    sentence has 1601 characters. *)
Definition fox_sentence : pystr :=
  list_ascii_of_string "The quick brown fox jumps over the lazy dog.".
Definition long_text : pystr := concat (repeat (app fox_sentence [" "%char]) 40).
Definition long_word_sentence : pystr := app (repeat "a"%char 1600) ["."%char].
Definition oversized_text : pystr :=
  app (list_ascii_of_string "Hello there. ") long_word_sentence.


(** Two events whose targets read "Save" and "Cancel", in both orders. *)
Definition labelled_target (s : string) : EventTarget :=
  {| tag := "button"; target_id := None; classes := []; text := Some s;
     selector := "button"; bbox := {| bb_x := 0; bb_y := 0; bb_width := 80; bb_height := 24 |};
     attributes := [("data-testid", "save-btn")]; target_type := None; name := None |}.
Definition labelled_event (t : Z) (s : string) : InteractionEvent :=
  {| timestamp := t; type := click; target := Some (labelled_target s); value := None;
     metadata := sample_metadata None |}.
Definition save_cancel : list InteractionEvent :=
  [labelled_event 0 "Save"; labelled_event 900 "Cancel"].
Definition cancel_save : list InteractionEvent :=
  [labelled_event 900 "Cancel"; labelled_event 0 "Save"; labelled_event 0 "Save"].

(** Two numbered steps. *)
Definition two_steps : list (nat * pystr) :=
  [(1%nat, list_ascii_of_string "Open the settings menu.");
   (12%nat, list_ascii_of_string "Click Save, then close the dialog.")].

(** Requests for [generate_voice_from_text]: every chunk succeeds at its
    third attempt; or the second chunk fails all its attempts. *)
Definition post_chunks (i : nat) (chunk : pystr) (n : nat) : PyResult ElevenLabsService.Response :=
  post_recovers n.
Definition post_second_fails (i : nat) (chunk : pystr) (n : nat)
  : PyResult ElevenLabsService.Response :=
  if Nat.eqb i 2 then post_fails n else post_recovers n.
Definition long_plan : list pystr := ElevenLabsService.tts_chunk_plan long_text.

(** Deepgram responses in the Node.js format. *)
Definition dg_alternative : list (string * RequestModels.json) :=
  [("transcript", RequestModels.JStr "hello world");
   ("words", RequestModels.JList [RequestModels.JDict [("word", RequestModels.JStr "hello")];
                                  RequestModels.JDict [("word", RequestModels.JStr "world")]]);
   ("paragraphs", RequestModels.JDict
      [("sentences", RequestModels.JList [RequestModels.JDict [("text", RequestModels.JStr "hello world")]]);
       ("paragraphs", RequestModels.JList [RequestModels.JDict [("num_words", RequestModels.JInt 2)]])])].
Definition dg_channel : list (string * RequestModels.json) :=
  [("alternatives", RequestModels.JList [RequestModels.JDict dg_alternative])].
Definition dg_results (channels : RequestModels.json) : list (string * RequestModels.json) :=
  [("channels", channels)].
Definition dg_raw (channels : RequestModels.json) : list (string * RequestModels.json) :=
  [("metadata", RequestModels.JDict []); ("results", RequestModels.JDict (dg_results channels))].
Definition request_of (data : option (list (string * RequestModels.json)))
    (resp : option (list (string * RequestModels.json))) : RequestModels.AudioProcessRequest :=
  {| RequestModels.text := "hello world"; RequestModels.deepgramResponse := resp;
     RequestModels.deepgramData := data; RequestModels.domEvents := [];
     RequestModels.session := None; RequestModels.recordingsPath := "/tmp/recordings";
     RequestModels.metadata := [] |}.
Definition node_request : RequestModels.AudioProcessRequest :=
  request_of None (Some [("raw", RequestModels.JDict (dg_raw
                       (RequestModels.JList [RequestModels.JDict dg_channel])))]).
Definition new_request : RequestModels.AudioProcessRequest :=
  request_of (Some [("words", RequestModels.JList []); ("sentences", RequestModels.JNone)])
    (Some [("raw", RequestModels.JDict (dg_raw
                       (RequestModels.JList [RequestModels.JDict dg_channel])))]).
Definition numeric_request : RequestModels.AudioProcessRequest :=
  request_of (Some []) (Some [("raw", RequestModels.JDict (dg_raw (RequestModels.JInt 1)))]).
Definition list_raw_request : RequestModels.AudioProcessRequest :=
  request_of None (Some [("raw", RequestModels.JList [RequestModels.JStr "results"])]).

End Samples.

(* ================================================================== *)
(** * Properties *)

(* ------------------------------------------------------------------ *)
(** ** The Event Segmenter *)

Module SegmenterProofs.

Ltac step_if :=
  match goal with
  | |- context [if ?b then _ else _] => destruct b eqn:?
  end.

Ltac concat_simpl :=
  repeat (rewrite ?map_app, ?concat_app, <- ?app_assoc; simpl).

(** A list built by appending or consing is not empty. *)
Ltac nonempty :=
  simpl; let H := fresh in
  intro H; apply (f_equal (@length _)) in H; rewrite ?length_app in H;
  simpl in H; lia.

(** Instantiate the induction hypothesis at the loop call of the goal. *)
Ltac loop_ih f IH H :=
  match goal with
  | |- context [f ?st ?c ?p _] => pose proof (IH st c p) as H
  end.

Module Dom.
Import DomEventService.

Lemma dom_group_loop_concat : forall rest steps cur prev,
  events cur <> [] ->
  concat (map events (group_loop steps cur prev rest))
  = concat (map events steps) ++ events cur ++ rest.
Proof.
  induction rest as [|e rest IH]; intros steps cur prev Hne; simpl.
  - destruct (events cur) as [|a l] eqn:He; [congruence|].
    rewrite map_app, concat_app. simpl. rewrite !app_nil_r, He. reflexivity.
  - step_if; loop_ih group_loop IH H; rewrite H by nonempty; concat_simpl; reflexivity.
Qed.

Lemma dom_group_loop_prefix : forall rest steps cur prev,
  events cur <> [] ->
  exists (s : Step) (ss : list Step),
    group_loop steps cur prev rest = steps ++ s :: ss /\
    exists tl, events s = events cur ++ tl.
Proof.
  induction rest as [|e rest IH]; intros steps cur prev Hne; simpl.
  - destruct (events cur) as [|a l] eqn:He; [congruence|].
    exists cur, []. split; [reflexivity|]. exists []. rewrite app_nil_r. exact He.
  - step_if; loop_ih group_loop IH H; destruct H as (s & ss & Heq & tl & Htl); [nonempty| |nonempty|];
      rewrite Heq.
    + eexists _, _. split; [rewrite <- app_assoc; reflexivity|].
      exists []. rewrite app_nil_r. reflexivity.
    + exists s, ss. split; [reflexivity|].
      exists (e :: tl). rewrite Htl. simpl. rewrite <- app_assoc. reflexivity.
Qed.

Lemma dom_group_loop_step_change : forall e post mid steps cur prev,
  type e = step_change ->
  events cur <> [] ->
  exists (ss1 : list Step) (s : Step) (ss2 : list Step),
    group_loop steps cur prev (mid ++ e :: post) = ss1 ++ s :: ss2 /\
    concat (map events ss1) = concat (map events steps) ++ events cur ++ mid /\
    hd_error (events s) = Some e.
Proof.
  intros e post. induction mid as [|m mid IH]; intros steps cur prev Hty Hne; simpl.
  - rewrite Hty, orb_true_r.
    loop_ih group_loop (dom_group_loop_prefix post) H. destruct H as (s & ss & Heq & tl & Htl); [nonempty|].
    rewrite Heq. eexists _, s, ss. split; [reflexivity|]. split.
    + concat_simpl. rewrite app_nil_r. reflexivity.
    + rewrite Htl. reflexivity.
  - step_if; loop_ih group_loop IH H; destruct H as (ss1 & s & ss2 & Heq & Hc & Hh);
      try exact Hty; try nonempty;
      rewrite Heq; exists ss1, s, ss2; (split; [reflexivity|]); (split; [|exact Hh]);
      rewrite Hc; concat_simpl; reflexivity.
Qed.

End Dom.

Module Rag.
Import RagService.

Lemma rag_group_loop_concat : forall rest steps cur prev,
  events cur <> [] ->
  concat (map events (group_loop steps cur prev rest))
  = concat (map events steps) ++ events cur ++ rest.
Proof.
  induction rest as [|e rest IH]; intros steps cur prev Hne; simpl.
  - destruct (events cur) as [|a l] eqn:He; [congruence|].
    rewrite map_app, concat_app. simpl. rewrite !app_nil_r, He. reflexivity.
  - step_if; loop_ih group_loop IH H; rewrite H by nonempty; concat_simpl; reflexivity.
Qed.

Lemma rag_group_loop_prefix : forall rest steps cur prev,
  events cur <> [] ->
  exists (s : Step) (ss : list Step),
    group_loop steps cur prev rest = steps ++ s :: ss /\
    exists tl, events s = events cur ++ tl.
Proof.
  induction rest as [|e rest IH]; intros steps cur prev Hne; simpl.
  - destruct (events cur) as [|a l] eqn:He; [congruence|].
    exists cur, []. split; [reflexivity|]. exists []. rewrite app_nil_r. exact He.
  - step_if; loop_ih group_loop IH H; destruct H as (s & ss & Heq & tl & Htl); [nonempty| |nonempty|];
      rewrite Heq.
    + eexists _, _. split; [rewrite <- app_assoc; reflexivity|].
      exists []. rewrite app_nil_r. reflexivity.
    + exists s, ss. split; [reflexivity|].
      exists (e :: tl). rewrite Htl. simpl. rewrite <- app_assoc. reflexivity.
Qed.

Lemma rag_group_loop_step_change : forall e post mid steps cur prev,
  type e = step_change ->
  events cur <> [] ->
  exists (ss1 : list Step) (s : Step) (ss2 : list Step),
    group_loop steps cur prev (mid ++ e :: post) = ss1 ++ s :: ss2 /\
    concat (map events ss1) = concat (map events steps) ++ events cur ++ mid /\
    hd_error (events s) = Some e.
Proof.
  intros e post. induction mid as [|m mid IH]; intros steps cur prev Hty Hne; simpl.
  - rewrite Hty, orb_true_r.
    loop_ih group_loop (rag_group_loop_prefix post) H. destruct H as (s & ss & Heq & tl & Htl); [nonempty|].
    rewrite Heq. eexists _, s, ss. split; [reflexivity|]. split.
    + concat_simpl. rewrite app_nil_r. reflexivity.
    + rewrite Htl. reflexivity.
  - step_if; loop_ih group_loop IH H; destruct H as (ss1 & s & ss2 & Heq & Hc & Hh);
      try exact Hty; try nonempty;
      rewrite Heq; exists ss1, s, ss2; (split; [reflexivity|]); (split; [|exact Hh]);
      rewrite Hc; concat_simpl; reflexivity.
Qed.

End Rag.

(** C1: both segmenters partition their input: the events of the steps,
    concatenated in step order, are the input sequence, and the empty input
    gives no step. *)
Theorem segmenter_partition : forall evs : list InteractionEvent,
  concat (map DomEventService.events (DomEventService.group_events_by_step evs)) = evs /\
  concat (map RagService.events (RagService._group_events_into_steps evs)) = evs /\
  DomEventService.group_events_by_step [] = [] /\
  RagService._group_events_into_steps [] = [].
Proof.
  intros [|e0 rest]; repeat split; try reflexivity; simpl.
  - rewrite Dom.dom_group_loop_concat by discriminate. reflexivity.
  - rewrite Rag.rag_group_loop_concat by discriminate. reflexivity.
Qed.

(** C8: a [step_change] event that is not the first event begins a step:
    the steps before it hold exactly the events before it, and the next step
    starts with it, whatever the time gap to the previous event. *)
Theorem step_change_starts_step : forall pre e post,
  pre <> [] ->
  type e = step_change ->
  (exists ss1 s ss2,
     DomEventService.group_events_by_step (pre ++ e :: post) = ss1 ++ s :: ss2 /\
     concat (map DomEventService.events ss1) = pre /\
     hd_error (DomEventService.events s) = Some e) /\
  (exists ss1 s ss2,
     RagService._group_events_into_steps (pre ++ e :: post) = ss1 ++ s :: ss2 /\
     concat (map RagService.events ss1) = pre /\
     hd_error (RagService.events s) = Some e).
Proof.
  intros [|p0 pre] e post Hne Hty; [congruence|]. split.
  - simpl. match goal with
    | |- context [DomEventService.group_loop [] ?c p0 _] =>
        destruct (Dom.dom_group_loop_step_change e post pre [] c p0 Hty ltac:(discriminate))
          as (ss1 & s & ss2 & Heq & Hc & Hh)
    end.
    exists ss1, s, ss2. rewrite Heq. simpl in Hc. auto.
  - simpl. match goal with
    | |- context [RagService.group_loop [] ?c p0 _] =>
        destruct (Rag.rag_group_loop_step_change e post pre [] c p0 Hty ltac:(discriminate))
          as (ss1 & s & ss2 & Heq & Hc & Hh)
    end.
    exists ss1, s, ss2. rewrite Heq. simpl in Hc. auto.
Qed.

Lemma step_change_starts_step_witness :
  [Samples.sample_event 0 click None] <> [] /\
  type (Samples.sample_event 0 step_change None) = step_change /\
  exists ss1 s ss2,
    DomEventService.group_events_by_step
      ([Samples.sample_event 0 click None] ++ [Samples.sample_event 0 step_change None])
    = ss1 ++ s :: ss2 /\
    concat (map DomEventService.events ss1) = [Samples.sample_event 0 click None] /\
    hd_error (DomEventService.events s) = Some (Samples.sample_event 0 step_change None).
Proof.
  split; [discriminate|]. split; [reflexivity|].
  exact (proj1 (step_change_starts_step [Samples.sample_event 0 click None]
                  (Samples.sample_event 0 step_change None) [] ltac:(discriminate) eq_refl)).
Defined.

End SegmenterProofs.

(* ------------------------------------------------------------------ *)
(** ** The Context Builder's scroll descriptions *)

Module ContextBuilderProofs.
Import RagService Samples.

(** C4, as stated: a scroll event at position (0, 0) contributes no
    description line.  It does: the Context Builder describes it. *)
Lemma zero_scroll_not_suppressed :
  ~ (forall (str_float : float -> string) (fmt_seconds : Z -> string)
            (e : InteractionEvent) (p : ScrollPosition),
       type e = scroll -> scrollPosition (metadata e) = Some p ->
       PrimFloat.eqb (x p) 0%float = true -> PrimFloat.eqb (y p) 0%float = true ->
       step_event_lines str_float fmt_seconds [e] = []).
Proof.
  intro H.
  specialize (H sample_str_float sample_fmt_seconds zero_scroll_event origin
                eq_refl eq_refl eq_refl eq_refl).
  vm_compute in H. discriminate H.
Qed.

(** The scenario's narrative has a line for each of its four events, the
    zero-movement scroll included. *)
Lemma scenario_narrative_lines :
  narrative_event_lines sample_str_float sample_fmt_seconds scenario_events =
  ["  [0s] Clicked"; "  [0s] Clicked"; "  [3s] Clicked";
   "  [3s] Scrolled to position (0.0, 0.0)"]%string.
Proof. vm_compute. reflexivity. Qed.

(** C4, amended: a scroll event with a position is described as
    "Scrolled to position (x, y)" and contributes one narrative line, zero
    coordinates included; only the frontend instruction list drops it, and
    exactly when both coordinates are zero; the steps keep every event. *)
Theorem scroll_description_and_instruction :
  forall (str_float : float -> string) (fmt_seconds : Z -> string)
         (e : InteractionEvent) (p : ScrollPosition) (evs : list InteractionEvent),
  type e = scroll ->
  scrollPosition (metadata e) = Some p ->
  _describe_event str_float e =
    Some ("Scrolled to position (" ++ str_float (x p) ++ ", " ++ str_float (y p) ++ ")")%string /\
  step_event_lines str_float fmt_seconds [e] =
    [("  [" ++ fmt_seconds (timestamp e) ++ "s] Scrolled to position ("
      ++ str_float (x p) ++ ", " ++ str_float (y p) ++ ")")%string] /\
  (DomEventInstruction.convert_event_to_instruction e = None <->
   PrimFloat.eqb (y p) 0%float && PrimFloat.eqb (x p) 0%float = true) /\
  concat (map events (_group_events_into_steps evs)) = evs.
Proof.
  intros str_float fmt_seconds e p evs Hty Hpos.
  assert (Hd : _describe_event str_float e =
    Some ("Scrolled to position (" ++ str_float (x p) ++ ", " ++ str_float (y p) ++ ")")%string).
  { unfold _describe_event. rewrite Hty, Hpos. reflexivity. }
  split; [exact Hd|]. split; [|split].
  - simpl. rewrite Hd. reflexivity.
  - unfold DomEventInstruction.convert_event_to_instruction. rewrite Hty, Hpos.
    destruct (PrimFloat.eqb (y p) 0%float && PrimFloat.eqb (x p) 0%float);
      split; intro H; congruence.
  - destruct evs as [|e0 rest]; [reflexivity|]. simpl.
    rewrite SegmenterProofs.Rag.rag_group_loop_concat by discriminate. reflexivity.
Qed.

Lemma scroll_description_and_instruction_witness :
  type zero_scroll_event = scroll /\
  scrollPosition (metadata zero_scroll_event) = Some origin /\
  DomEventInstruction.convert_event_to_instruction zero_scroll_event = None /\
  _describe_event sample_str_float zero_scroll_event =
    Some "Scrolled to position (0.0, 0.0)"%string.
Proof.
  split; [reflexivity|]. split; [reflexivity|].
  destruct (scroll_description_and_instruction sample_str_float sample_fmt_seconds
              zero_scroll_event origin scenario_events eq_refl eq_refl)
    as (Hd & _ & Hconv & _).
  split.
  - apply Hconv. vm_compute. reflexivity.
  - exact Hd.
Defined.

End ContextBuilderProofs.

(* ------------------------------------------------------------------ *)
(** ** The Timing Analyzer *)

Module TimingProofs.
Import TimingAnalyzer Samples.

Lemma ltb_0_eqb : forall t, PrimFloat.ltb 0 t = true -> PrimFloat.eqb t 0 = false.
Proof.
  intros t H. rewrite ltb_spec in H. rewrite eqb_spec.
  destruct (Prim2SF t) as [[]|[]| |[] m e]; vm_compute in H |- *;
    try discriminate; reflexivity.
Qed.

Lemma leb_0_ltb : forall t, PrimFloat.leb t 0 = true -> PrimFloat.ltb 0 t = false.
Proof.
  intros t H. rewrite leb_spec in H. rewrite ltb_spec.
  destruct (Prim2SF t) as [[]|[]| |[] m e]; vm_compute in H |- *;
    try discriminate; reflexivity.
Qed.

(** C9: on a non-empty word list the analysis returns (no division error is
    raised), and its speaking rate is the word count over the total duration
    when that is positive, and 0 when it is not above 0. *)
Theorem speaking_rate_guarded : forall words : list Word,
  words <> [] ->
  exists ta,
    analyze_word_timings words = Ok ta /\
    (Py.fgt (total_duration ta) 0 = true ->
     speaking_rate ta = (float_of_nat (length words) / total_duration ta)%float) /\
    (Py.fle (total_duration ta) 0 = true -> speaking_rate ta = 0%float).
Proof.
  intros [|w ws] Hne; [congruence|].
  unfold analyze_word_timings.
  set (st := analysis_loop 0 (w :: ws) init_state).
  set (T := (get_num (end_ (last (w :: ws) w)) 0 - get_num (start w) 0)%float).
  assert (Havg : exists a,
    match st_gaps st with
    | [] => Ok 0%float
    | _ :: _ => fdiv_int (sum_durations (st_gaps st)) (length (st_gaps st))
    end = Ok a).
  { destruct (st_gaps st); [eexists; reflexivity|].
    unfold fdiv_int. simpl. eexists; reflexivity. }
  destruct Havg as [a Ha]. rewrite Ha. simpl.
  destruct (Py.fgt T 0) eqn:Hgt.
  - unfold fdiv. unfold Py.fgt in Hgt. rewrite (ltb_0_eqb T Hgt). simpl.
    eexists; split; [reflexivity|]. simpl. split; [reflexivity|].
    intro Hle. unfold Py.fle in Hle. rewrite (leb_0_ltb T Hle) in Hgt. discriminate.
  - eexists; split; [reflexivity|]. simpl. split; [congruence|reflexivity].
Qed.

Lemma speaking_rate_guarded_witness :
  zero_word <> [] /\
  exists ta, analyze_word_timings zero_word = Ok ta /\ speaking_rate ta = 0%float.
Proof.
  split; [discriminate|].
  destruct (speaking_rate_guarded zero_word ltac:(discriminate)) as (ta & Hok & _ & Hle).
  exists ta. split; [exact Hok|]. apply Hle.
  vm_compute in Hok. injection Hok as <-. vm_compute. reflexivity.
Defined.

(** C2, as stated: the one gap of the example is classified [natural].
    It is not: a 0.5 s gap is not above the 0.5 s bound of [natural]. *)
Lemma half_second_gap_not_natural :
  ~ (exists ta g,
       analyze_word_timings example_words = Ok ta /\ gaps ta = [g] /\
       PrimFloat.eqb (duration g) 0.5 = true /\ gap_type g = natural).
Proof.
  intros (ta & g & Hok & Hg & _ & Ht).
  vm_compute in Hok. injection Hok as <-. simpl in Hg. injection Hg as <-.
  discriminate Ht.
Qed.

(** C2, amended: the example input has exactly one gap, of 0.5 s, and it
    is classified [minor], not [natural]. *)
Theorem half_second_gap_minor :
  exists ta g,
    analyze_word_timings example_words = Ok ta /\ gaps ta = [g] /\
    PrimFloat.eqb (duration g) 0.5 = true /\ gap_type g = minor.
Proof.
  eexists; eexists. split; [reflexivity|]. split; [reflexivity|].
  split; reflexivity.
Qed.

(** C3: the loop over consecutive pairs never inspects the confidence of
    the last word: a single word of confidence 0.5 is not flagged. *)
Theorem last_word_confidence_unchecked :
  exists ta,
    analyze_word_timings one_low_word = Ok ta /\
    low_confidence_words ta = [] /\
    map confidence one_low_word = [Some 0.5%float].
Proof.
  eexists. split; [reflexivity|]. split; reflexivity.
Qed.

(** The analysis itself never raises: both divisions are guarded. *)
Lemma analyze_ok : forall words, exists ta, analyze_word_timings words = Ok ta.
Proof.
  intros [|w ws]; [eexists; reflexivity|].
  unfold analyze_word_timings.
  set (st := analysis_loop 0 (w :: ws) init_state).
  set (T := (get_num (end_ (last (w :: ws) w)) 0 - get_num (start w) 0)%float).
  destruct (st_gaps st) eqn:Eg; simpl;
    [|unfold fdiv_int; simpl];
    (destruct (Py.fgt T 0) eqn:Hgt;
     [unfold fdiv, Py.fgt in *; rewrite (ltb_0_eqb T Hgt)|]; simpl; eexists; reflexivity).
Qed.

End TimingProofs.

(* ------------------------------------------------------------------ *)
(** ** Text normalisation *)

Module TextProofs.
Import TextInvariants.

Lemma pairs_ok_cons : forall P a l,
  pairs_ok P (a :: l) = true <->
  (match l with b :: _ => P a b = true | [] => True end) /\ pairs_ok P l = true.
Proof.
  intros P a [|b l]; simpl.
  - tauto.
  - rewrite andb_true_iff. tauto.
Qed.

Lemma pairs_ok_app_l : forall P l1 l2, pairs_ok P (l1 ++ l2) = true -> pairs_ok P l1 = true.
Proof.
  intros P l1 l2. induction l1 as [|a l1 IH]; [reflexivity|].
  simpl app. rewrite !pairs_ok_cons. intros [Hh Ht]. split; [|auto].
  destruct l1; [exact I|exact Hh].
Qed.

Lemma pairs_ok_app_r : forall P l1 l2, pairs_ok P (l1 ++ l2) = true -> pairs_ok P l2 = true.
Proof.
  intros P l1 l2. induction l1 as [|a l1 IH]; [auto|].
  simpl app. rewrite pairs_ok_cons. intros [_ Ht]. auto.
Qed.

Lemma lstrip_suffix : forall s, exists pre, s = pre ++ lstrip s.
Proof.
  induction s as [|c s IH]; simpl.
  - exists []. reflexivity.
  - destruct (is_space c).
    + destruct IH as [pre Hpre]. exists (c :: pre). simpl. congruence.
    + exists []. reflexivity.
Qed.

Lemma rstrip_prefix : forall s, exists suf, s = rstrip s ++ suf.
Proof.
  intros s. unfold rstrip. destruct (lstrip_suffix (rev s)) as [pre Hpre].
  exists (rev pre). rewrite <- rev_app_distr, <- Hpre, rev_involutive. reflexivity.
Qed.

Lemma strip_infix : forall s, exists pre suf, s = pre ++ strip s ++ suf.
Proof.
  intros s. destruct (lstrip_suffix s) as [pre Hpre].
  destruct (rstrip_prefix (lstrip s)) as [suf Hsuf].
  exists pre, suf. unfold strip. rewrite <- Hsuf. exact Hpre.
Qed.

Lemma starts_ok_lstrip : forall s, starts_ok (lstrip s) = true.
Proof.
  induction s as [|c s IH]; [reflexivity|]. simpl.
  destruct (is_space c) eqn:E; [exact IH|]. simpl. rewrite E. reflexivity.
Qed.

Lemma starts_ok_rstrip : forall s, starts_ok s = true -> starts_ok (rstrip s) = true.
Proof.
  intros s Hs. destruct (rstrip_prefix s) as [suf Hsuf].
  destruct (rstrip s) as [|c r]; [reflexivity|].
  rewrite Hsuf in Hs. exact Hs.
Qed.

Lemma strip_shape : forall s, starts_ok (strip s) = true /\ ends_ok (strip s) = true.
Proof.
  intros s. split.
  - apply starts_ok_rstrip, starts_ok_lstrip.
  - unfold ends_ok, strip, rstrip. rewrite rev_involutive. apply starts_ok_lstrip.
Qed.

Lemma lstrip_id : forall s, starts_ok s = true -> lstrip s = s.
Proof.
  intros [|c s] H; [reflexivity|]. simpl in *.
  destruct (is_space c); [discriminate|reflexivity].
Qed.

Lemma strip_id : forall s, starts_ok s = true -> ends_ok s = true -> strip s = s.
Proof.
  intros s H1 H2. unfold strip, rstrip. rewrite (lstrip_id s H1).
  rewrite (lstrip_id (rev s) H2). apply rev_involutive.
Qed.

Lemma forallb_infix : forall (f : ascii -> bool) pre x suf,
  forallb f (pre ++ x ++ suf) = true -> forallb f x = true.
Proof.
  intros f pre x suf H. rewrite !forallb_app, !andb_true_iff in H. tauto.
Qed.

Lemma pairs_ok_infix : forall P pre x suf,
  pairs_ok P (pre ++ x ++ suf) = true -> pairs_ok P x = true.
Proof.
  intros P pre x suf H. apply pairs_ok_app_r in H. apply pairs_ok_app_l in H. exact H.
Qed.

Lemma punct_not_space : forall c, is_punct c = true -> is_space c = false.
Proof.
  intros c H. unfold is_punct, is_char in H.
  repeat match goal with H : _ || _ = true |- _ => apply orb_prop in H; destruct H as [H|H] end;
    apply Ascii.eqb_eq in H; subst; reflexivity.
Qed.

Lemma forallb_impl : forall (f g : ascii -> bool) x,
  (forall c, f c = true -> g c = true) -> forallb f x = true -> forallb g x = true.
Proof.
  intros f g x Hfg. induction x as [|c x IH]; simpl; [reflexivity|].
  rewrite !andb_true_iff. intros [H1 H2]. auto.
Qed.

Lemma pairs_ok_impl : forall (P Q : ascii -> ascii -> bool) x,
  (forall a b, P a b = true -> Q a b = true) -> pairs_ok P x = true -> pairs_ok Q x = true.
Proof.
  intros P Q x HPQ. induction x as [|a x IH]; [reflexivity|].
  rewrite !pairs_ok_cons. intros [H1 H2]. split; [|auto].
  destruct x; [exact I|auto].
Qed.

(** [re.sub(r"\s+", " ")] leaves no two adjacent whitespace characters. *)
Lemma collapse_shape : forall x b,
  pairs_ok no_double_space (collapse_ws b x) = true /\
  (b = true -> starts_ok (collapse_ws b x) = true).
Proof.
  intro x; induction x as [|c x IH]; intros b; simpl; [split; reflexivity|].
  destruct (is_space c) eqn:Ec.
  - destruct b; [exact (IH true)|].
    destruct (IH true) as [H1 H2]. split; [|discriminate].
    apply pairs_ok_cons. split; [|exact H1].
    specialize (H2 eq_refl).
    destruct (collapse_ws true x) as [|d y]; [exact I|].
    simpl in H2. unfold no_double_space.
    destruct (is_space d); [discriminate|]. rewrite andb_false_r. reflexivity.
  - destruct (IH false) as [H1 _]. split.
    + apply pairs_ok_cons. split; [|exact H1].
      destruct (collapse_ws false x); [exact I|].
      unfold no_double_space. rewrite Ec. reflexivity.
    + intros _. simpl. rewrite Ec. reflexivity.
Qed.

Lemma collapse_chars : forall (f : ascii -> bool) x b,
  f sp = true -> forallb (fun c => is_space c || f c) x = true ->
  forallb f (collapse_ws b x) = true.
Proof.
  intros f x. induction x as [|c x IH]; intros b Hsp Hx; simpl; [reflexivity|].
  simpl in Hx. apply andb_true_iff in Hx as [Hc Hx].
  destruct (is_space c) eqn:Ec.
  - destruct b; simpl; [auto|]. rewrite Hsp. simpl. auto.
  - simpl in Hc. simpl. rewrite Hc. simpl. auto.
Qed.

Lemma fix_chars : forall (f : ascii -> bool) x pend,
  forallb f pend = true -> forallb f x = true ->
  forallb f (fix_punct_spacing pend x) = true.
Proof.
  intros f x. induction x as [|c x IH]; intros pend Hp Hx; simpl; [exact Hp|].
  simpl in Hx. apply andb_true_iff in Hx as [Hc Hx].
  destruct (is_space c); [|destruct (is_punct c)].
  - apply IH; [rewrite forallb_app; simpl; rewrite Hp, Hc; reflexivity|exact Hx].
  - simpl. rewrite Hc. simpl. apply IH; [reflexivity|exact Hx].
  - rewrite forallb_app. simpl. rewrite Hp, Hc. simpl. apply IH; [reflexivity|exact Hx].
Qed.

(** [re.sub(r"\s+([.,!?])", r"\1")] on single-spaced text leaves no
    whitespace before a punctuation mark or another whitespace. *)
Lemma fix_shape : forall x pend,
  pairs_ok no_double_space x = true ->
  (pend = [] \/ exists w, pend = [w] /\ is_space w = true /\ starts_ok x = true) ->
  pairs_ok no_space_before (fix_punct_spacing pend x) = true.
Proof.
  intro x; induction x as [|c x IH]; intros pend Hx Hp; simpl.
  - destruct Hp as [->|(w & -> & _)]; reflexivity.
  - apply pairs_ok_cons in Hx as Hx'. destruct Hx' as [Hcx Htl].
    assert (Hrest : is_space c = false -> pairs_ok no_space_before (c :: fix_punct_spacing [] x) = true).
    { intros Ec. apply pairs_ok_cons. split.
      - destruct (fix_punct_spacing [] x); [exact I|].
        unfold no_space_before. rewrite Ec. reflexivity.
      - apply IH; [exact Htl|left; reflexivity]. }
    destruct (is_space c) eqn:Ec.
    + destruct Hp as [->|(w & -> & _ & Hs)]; [|simpl in Hs; rewrite Ec in Hs; discriminate].
      apply IH; [exact Htl|]. right. exists c. split; [reflexivity|]. split; [exact Ec|].
      destruct x as [|d x]; [reflexivity|]. simpl.
      unfold no_double_space in Hcx. rewrite Ec in Hcx.
      destruct (is_space d); [discriminate|reflexivity].
    + destruct (is_punct c) eqn:Epc; [exact (Hrest eq_refl)|].
      destruct Hp as [->|(w & -> & Hw & _)]; [exact (Hrest eq_refl)|].
      change (pairs_ok no_space_before (w :: c :: fix_punct_spacing [] x) = true).
      apply pairs_ok_cons. split; [|exact (Hrest eq_refl)].
      unfold no_space_before. rewrite Hw, Ec, Epc. reflexivity.
Qed.

Lemma normalize_tail_cleaned : forall y,
  cleaned (strip (fix_punct_spacing [] (collapse_ws false y))) = true.
Proof.
  intros y.
  set (z := fix_punct_spacing [] (collapse_ws false y)).
  assert (Hz1 : forallb space_is_sp z = true).
  { apply fix_chars; [reflexivity|]. apply collapse_chars; [reflexivity|].
    apply (forallb_impl (fun _ => true)); [|induction y; simpl; auto].
    intros c _. unfold space_is_sp. destruct (is_space c); reflexivity. }
  assert (Hz2 : pairs_ok no_space_before z = true).
  { apply fix_shape; [apply collapse_shape|left; reflexivity]. }
  destruct (strip_infix z) as (pre & suf & E).
  destruct (strip_shape z) as [Hs He].
  unfold cleaned. rewrite E in Hz1, Hz2.
  rewrite (forallb_infix _ _ _ _ Hz1), (pairs_ok_infix _ _ _ _ Hz2), Hs, He.
  reflexivity.
Qed.

Lemma normalize_tail_no_star : forall y,
  forallb not_star y = true ->
  forallb not_star (strip (fix_punct_spacing [] (collapse_ws false y))) = true.
Proof.
  intros y Hy.
  set (z := fix_punct_spacing [] (collapse_ws false y)).
  assert (Hz : forallb not_star z = true).
  { apply fix_chars; [reflexivity|]. apply collapse_chars; [reflexivity|].
    apply (forallb_impl not_star); [|exact Hy].
    intros c Hc. rewrite Hc. apply orb_true_r. }
  destruct (strip_infix z) as (pre & suf & E).
  rewrite E in Hz. exact (forallb_infix _ _ _ _ Hz).
Qed.

Lemma remove_star_no_star : forall x, forallb not_star (remove_star x) = true.
Proof.
  intro x; induction x as [|c x IH]; [reflexivity|]. unfold remove_star in *. simpl.
  destruct (is_char "*" c) eqn:E; simpl; [exact IH|].
  unfold not_star. rewrite E. exact IH.
Qed.

Lemma replace_newline_no_star : forall x,
  forallb not_star x = true -> forallb not_star (replace_newline x) = true.
Proof.
  intro x; induction x as [|c x IH]; intros H; [reflexivity|]. simpl in *.
  apply andb_true_iff in H as [Hc Hx].
  destruct (is_char "010" c); simpl; rewrite IH by exact Hx;
    [reflexivity|rewrite Hc; reflexivity].
Qed.

(** Cleaned text is left unchanged by each rewrite. *)
Lemma remove_double_star_id : forall x,
  forallb not_star x = true -> remove_double_star x = x.
Proof.
  intro x; induction x as [|c x IH]; intros H; [reflexivity|].
  simpl in H. apply andb_true_iff in H as [Hc Hx].
  unfold not_star in Hc. apply negb_true_iff in Hc.
  destruct x as [|d x]; [reflexivity|].
  change (remove_double_star (c :: d :: x))
    with (if is_char "*" c && is_char "*" d then remove_double_star x
          else c :: remove_double_star (d :: x)).
  rewrite Hc, andb_false_l, IH by exact Hx. reflexivity.
Qed.

Lemma remove_star_id : forall x, forallb not_star x = true -> remove_star x = x.
Proof.
  intro x; induction x as [|c x IH]; intros H; [reflexivity|].
  simpl in H. apply andb_true_iff in H as [Hc Hx].
  unfold remove_star in *. simpl. unfold not_star in Hc. rewrite Hc, IH by exact Hx.
  reflexivity.
Qed.

Lemma replace_newline_id : forall x, forallb space_is_sp x = true -> replace_newline x = x.
Proof.
  intro x; induction x as [|c x IH]; intros H; [reflexivity|].
  simpl in H. apply andb_true_iff in H as [Hc Hx]. simpl. rewrite IH by exact Hx.
  destruct (is_char "010" c) eqn:E; [|reflexivity].
  apply Ascii.eqb_eq in E. subst. discriminate Hc.
Qed.

Lemma collapse_id : forall x b,
  forallb space_is_sp x = true -> pairs_ok no_double_space x = true ->
  (b = true -> starts_ok x = true) -> collapse_ws b x = x.
Proof.
  intro x; induction x as [|c x IH]; intros b H1 H2 H3; [reflexivity|].
  simpl in H1. apply andb_true_iff in H1 as [Hc Hx].
  apply pairs_ok_cons in H2 as [Hcx Htl]. simpl.
  destruct (is_space c) eqn:Ec.
  - destruct b; [specialize (H3 eq_refl); simpl in H3; rewrite Ec in H3; discriminate|].
    unfold space_is_sp in Hc. rewrite Ec in Hc. apply Ascii.eqb_eq in Hc. subst c.
    f_equal. apply IH; [exact Hx|exact Htl|]. intros _.
    destruct x as [|d x]; [reflexivity|]. simpl.
    unfold no_double_space in Hcx. rewrite Ec in Hcx.
    destruct (is_space d); [discriminate|reflexivity].
  - f_equal. apply IH; [exact Hx|exact Htl|discriminate].
Qed.

Lemma fix_id : forall x pend,
  forallb is_space pend = true ->
  (pend <> [] -> match x with c :: _ => is_punct c = false | [] => True end) ->
  pairs_ok no_space_before x = true ->
  fix_punct_spacing pend x = pend ++ x.
Proof.
  intro x; induction x as [|c x IH]; intros pend Hp Hnp Hx; simpl.
  - rewrite app_nil_r. reflexivity.
  - apply pairs_ok_cons in Hx as [Hcx Htl].
    destruct (is_space c) eqn:Ec.
    + rewrite IH; [rewrite <- app_assoc; reflexivity| | |exact Htl].
      * rewrite forallb_app. simpl. rewrite Hp, Ec. reflexivity.
      * intros _. destruct x as [|d x]; [exact I|].
        unfold no_space_before in Hcx. rewrite Ec in Hcx. simpl in Hcx.
        destruct (is_punct d); [rewrite orb_true_r in Hcx; discriminate|reflexivity].
    + rewrite IH; [| reflexivity | intros []; reflexivity | exact Htl].
      destruct (is_punct c) eqn:Epc; [|reflexivity].
      destruct pend as [|w pend]; [reflexivity|].
      specialize (Hnp ltac:(discriminate)). simpl in Hnp. congruence.
Qed.

Lemma cleaned_parts : forall r, cleaned r = true ->
  forallb space_is_sp r = true /\ pairs_ok no_space_before r = true /\
  starts_ok r = true /\ ends_ok r = true.
Proof.
  intros r H. unfold cleaned in H. rewrite !andb_true_iff in H. tauto.
Qed.

Lemma normalize_tail_id : forall r, cleaned r = true ->
  strip (fix_punct_spacing [] (collapse_ws false r)) = r.
Proof.
  intros r H. destruct (cleaned_parts r H) as (H1 & H2 & H3 & H4).
  rewrite collapse_id; [| exact H1 | | discriminate].
  - rewrite fix_id; [apply strip_id; assumption | reflexivity | intros []; reflexivity | exact H2].
  - apply (pairs_ok_impl no_space_before); [|exact H2].
    intros a b. unfold no_space_before, no_double_space.
    destruct (is_space a), (is_space b); simpl; congruence.
Qed.

Lemma clean_script_chars_shape : forall x,
  cleaned (ScriptClean.clean_script_chars x) = true /\
  forallb not_star (ScriptClean.clean_script_chars x) = true.
Proof.
  intros [|c l]; [split; reflexivity|]. split.
  - apply normalize_tail_cleaned.
  - apply normalize_tail_no_star, replace_newline_no_star, remove_star_no_star.
Qed.

Lemma clean_output_chars_shape : forall x, cleaned (ScriptClean.clean_output_chars x) = true.
Proof.
  intros [|c l]; [reflexivity|]. apply normalize_tail_cleaned.
Qed.

Lemma clean_script_chars_fixpoint : forall r,
  cleaned r = true -> forallb not_star r = true -> ScriptClean.clean_script_chars r = r.
Proof.
  intros [|a r] Hc Hs; [reflexivity|]. unfold ScriptClean.clean_script_chars.
  rewrite remove_double_star_id, remove_star_id, replace_newline_id by
    (try exact Hs; apply cleaned_parts in Hc; tauto).
  apply normalize_tail_id. exact Hc.
Qed.

Lemma clean_output_chars_fixpoint : forall r,
  cleaned r = true -> ScriptClean.clean_output_chars r = r.
Proof.
  intros [|a r] Hc; [reflexivity|]. unfold ScriptClean.clean_output_chars.
  rewrite replace_newline_id by (apply cleaned_parts in Hc; tauto).
  apply normalize_tail_id. exact Hc.
Qed.

(** C10: cleaning cleaned text changes nothing, for [_clean_script_output]
    and for [clean_output]. *)
Theorem clean_idempotent : forall s : string,
  ScriptClean._clean_script_output (ScriptClean._clean_script_output s)
  = ScriptClean._clean_script_output s /\
  ScriptClean.clean_output (ScriptClean.clean_output s) = ScriptClean.clean_output s.
Proof.
  intros s. unfold ScriptClean._clean_script_output, ScriptClean.clean_output.
  rewrite !list_ascii_of_string_of_list_ascii. split; f_equal.
  - destruct (clean_script_chars_shape (list_ascii_of_string s)) as [Hc Hs].
    apply clean_script_chars_fixpoint; assumption.
  - apply clean_output_chars_fixpoint, clean_output_chars_shape.
Qed.

End TextProofs.

(* ------------------------------------------------------------------ *)
(** ** Script generation *)

Module GenerationProofs.
Import TimingAnalyzer ScriptGeneration.

(** C7: when the text-generation call raises, [generate_product_script]
    does not raise: for every transcript, word list and session it returns
    the failure dictionary, with [success] false, the error text, and the
    error message as its script. *)
Theorem generation_failure_structured :
  forall (btc : TimingAnalysis -> string) (brc : RecordingSession -> string)
         (ft ues : list InteractionEvent -> string)
         (mp : string -> string -> string -> string -> string -> string)
         (gen : string -> PyResult string)
         (raw : string) (words : list Word) (session : option RecordingSession)
         (e : exn),
  (forall prompt, gen prompt = Raise e) ->
  exists r,
    generate_product_script btc brc ft ues mp gen raw words session = Ok r /\
    success r = false /\ error r = Some (str_exn e) /\
    script r = ("Error generating script: " ++ str_exn e)%string /\
    raw_text r = raw.
Proof.
  intros btc brc ft ues mp gen raw words session e Hgen.
  destruct (TimingProofs.analyze_ok words) as [ta Hta].
  unfold generate_product_script. rewrite Hta. simpl.
  destruct session as [s|]; [destruct (session_events s)|]; simpl;
    rewrite Hgen; simpl; eexists; repeat split.
Qed.

Lemma generation_failure_structured_witness :
  exists r,
    generate_product_script (fun _ => ""%string) (fun _ => ""%string)
      (fun _ => ""%string) (fun _ => ""%string)
      (fun _ _ _ _ _ => ""%string)
      (fun _ => Raise (RuntimeError "quota exceeded"))
      "hello"%string Samples.two_words None = Ok r /\
    success r = false /\ error r = Some "quota exceeded"%string /\
    script r = "Error generating script: quota exceeded"%string /\
    raw_text r = "hello"%string.
Proof.
  exact (generation_failure_structured (fun _ => ""%string) (fun _ => ""%string)
           (fun _ => ""%string) (fun _ => ""%string) (fun _ _ _ _ _ => ""%string)
           (fun _ => Raise (RuntimeError "quota exceeded"))
           "hello"%string Samples.two_words None (RuntimeError "quota exceeded")
           (fun _ => eq_refl)).
Defined.

End GenerationProofs.

(* ------------------------------------------------------------------ *)
(** ** Speech synthesis: the retry loop of one chunk *)

Module RetryProofs.
Import ElevenLabsService.

Definition fails {A} (r : PyResult A) : Prop := exists e, r = Raise e.

(** An attempt fails exactly when the request raises, the response is not
    ok, or it carries fewer than 100 bytes. *)
Lemma attempt_once_fails : forall posted,
  fails (attempt_once posted) <->
  fails (posted) \/
  exists resp, posted = Ok resp /\ (ok resp = false \/ (length (content resp) < 100)%nat).
Proof.
  intros [resp|e]; unfold fails; simpl.
  - destruct (ok resp) eqn:Eok; simpl.
    + destruct (Nat.ltb_spec (length (content resp)) 100) as [Hlt|Hge].
      * split; [intros _; right; eauto|eexists; reflexivity].
      * split; [intros (e & He); discriminate|].
        intros [(e & He)|(r & Hr & [Hf|Hl])]; [discriminate|..];
          injection Hr as <-; [congruence|lia].
    + split; [intros _; right; eauto|eexists; reflexivity].
  - split; [intros _; left; eauto|eexists; reflexivity].
Qed.

Definition timeout_msg : string :=
  "Deepgram TTS timeout after 3 attempts. API may be slow or unresponsive."%string.
Definition connection_msg : string :=
  "Cannot connect to Deepgram API after 3 attempts. Check network connectivity."%string.

Lemma attempt_once_ok : forall resp,
  ok resp = true -> (100 <= length (content resp))%nat ->
  attempt_once (Ok resp) = Ok (content resp).
Proof.
  intros resp Hok Hlen. unfold attempt_once. simpl. rewrite Hok. simpl.
  destruct (Nat.ltb_spec (length (content resp)) 100); [lia|reflexivity].
Qed.

Definition retry_trace : list TraceEvent :=
  [Post 1; Sleep (RETRY_DELAY * 1); Post 2; Sleep (RETRY_DELAY * 2); Post 3].

(** C5: a chunk whose first two attempts fail (a response under 100 bytes
    counts as a failure) and whose third succeeds yields the third payload;
    when all three fail, the classified error of the last failure is raised.
    Both runs make exactly the requests of attempts 1, 2, 3, sleeping
    [RETRY_DELAY * attempt] seconds after each failed attempt but the last. *)
Theorem single_chunk_retry : forall post : nat -> PyResult Response,
  (forall posted,
     fails (attempt_once posted) <->
     fails posted \/
     exists resp, posted = Ok resp /\ (ok resp = false \/ (length (content resp) < 100)%nat)) /\
  (fails (attempt_once (post 1)) -> fails (attempt_once (post 2)) ->
   forall resp, post 3 = Ok resp -> ok resp = true -> (100 <= length (content resp))%nat ->
   _generate_single_chunk post = (retry_trace, Ok (content resp))) /\
  (forall e1 e2 e3,
   attempt_once (post 1) = Raise e1 -> attempt_once (post 2) = Raise e2 ->
   attempt_once (post 3) = Raise e3 ->
   _generate_single_chunk post = (retry_trace, Raise (final_error (Some e3))) /\
   (contains "timeout" (lower (str_exn e3)) = true ->
    final_error (Some e3) = RuntimeError timeout_msg) /\
   (contains "timeout" (lower (str_exn e3)) = false ->
    contains "connection" (lower (str_exn e3)) = true ->
    final_error (Some e3) = RuntimeError connection_msg) /\
   (contains "timeout" (lower (str_exn e3)) = false ->
    contains "connection" (lower (str_exn e3)) = false ->
    final_error (Some e3) = e3)).
Proof.
  intros post. split; [exact attempt_once_fails|split].
  - intros [e1 H1] [e2 H2] resp H3 Hok Hlen.
    unfold _generate_single_chunk. simpl.
    rewrite H1, H2, H3, (attempt_once_ok resp Hok Hlen). reflexivity.
  - intros e1 e2 e3 H1 H2 H3. split; [|split; [|split]].
    + unfold _generate_single_chunk. simpl. rewrite H1, H2, H3. reflexivity.
    + intros Ht. unfold final_error. rewrite Ht. reflexivity.
    + intros Ht Hc. unfold final_error. rewrite Ht, Hc. reflexivity.
    + intros Ht Hc. unfold final_error. rewrite Ht, Hc. reflexivity.
Qed.

Lemma single_chunk_retry_witness :
  _generate_single_chunk Samples.post_recovers = (retry_trace, Ok (repeat Byte.x00 120)) /\
  _generate_single_chunk Samples.post_fails = (retry_trace, Raise (RuntimeError timeout_msg)).
Proof.
  split.
  - destruct (single_chunk_retry Samples.post_recovers) as (_ & Hs & _).
    exact (Hs ltac:(eexists; reflexivity) ltac:(eexists; reflexivity)
              Samples.good_response eq_refl eq_refl ltac:(simpl; lia)).
  - destruct (single_chunk_retry Samples.post_fails) as (_ & _ & Hf).
    destruct (Hf _ _ _ eq_refl eq_refl eq_refl) as (Hg & Ht & _).
    rewrite Hg. rewrite Ht by (vm_compute; reflexivity). reflexivity.
Defined.

End RetryProofs.

(* ------------------------------------------------------------------ *)
(** ** Speech synthesis: sentence chunking *)

Module ChunkProofs.
Import TextInvariants TextProofs ElevenLabsService.

(** A sentence as the splitter returns it: non-empty, no whitespace at
    either end. *)
Definition piece_ok (x : pystr) : Prop :=
  x <> [] /\ starts_ok x = true /\ ends_ok x = true.

(** A group of sentences packed into one chunk: a lone sentence, or a chunk
    within the size limit. *)
Definition grp_ok (max : nat) (g : list pystr) : Prop :=
  g <> [] /\ (length g = 1 \/ length (join [sp] g) <= max)%nat.

Lemma ends_ok_app : forall x y, y <> [] -> ends_ok (x ++ y) = ends_ok y.
Proof.
  intros x y Hy. unfold ends_ok. rewrite rev_app_distr.
  destruct (rev y) as [|c r] eqn:E; [|reflexivity].
  apply (f_equal (@rev ascii)) in E. rewrite rev_involutive in E. contradiction.
Qed.

Lemma starts_ok_app : forall x y, x <> [] -> starts_ok (x ++ y) = starts_ok x.
Proof. intros [|c x] y H; [contradiction|reflexivity]. Qed.

Lemma ends_ok_cons_ns : forall c x,
  is_space c = false -> ends_ok x = true -> ends_ok (c :: x) = true.
Proof.
  intros c [|d x] Hc Hx.
  - unfold ends_ok. simpl. rewrite Hc. reflexivity.
  - change (c :: d :: x) with ([c] ++ d :: x). rewrite ends_ok_app; [exact Hx|discriminate].
Qed.

Lemma ends_ok_tail : forall c x, ends_ok (c :: x) = true -> ends_ok x = true.
Proof.
  intros c [|d x] H; [reflexivity|].
  change (c :: d :: x) with ([c] ++ d :: x) in H.
  rewrite ends_ok_app in H; [exact H|discriminate].
Qed.

Lemma space_is_sp_eq : forall c, is_space c = true -> space_is_sp c = true -> c = sp.
Proof.
  intros c H1 H2. unfold space_is_sp in H2. rewrite H1 in H2.
  apply Ascii.eqb_eq. exact H2.
Qed.

Lemma join_cons_head : forall d x l, join [sp] ((d :: x) :: l) = d :: join [sp] (x :: l).
Proof. intros d x [|y l]; reflexivity. Qed.

Lemma join_app : forall l1 l2, l1 <> [] -> l2 <> [] ->
  join [sp] (l1 ++ l2) = join [sp] l1 ++ sp :: join [sp] l2.
Proof.
  induction l1 as [|x l1 IH]; intros l2 H1 H2; [contradiction|].
  destruct l1 as [|y l1].
  - simpl. destruct l2; [contradiction|reflexivity].
  - change ((x :: y :: l1) ++ l2) with (x :: ((y :: l1) ++ l2)).
    change (join [sp] (x :: (y :: l1) ++ l2)) with (x ++ [sp] ++ join [sp] ((y :: l1) ++ l2)).
    change (join [sp] (x :: y :: l1)) with (x ++ [sp] ++ join [sp] (y :: l1)).
    rewrite IH by (discriminate || exact H2). rewrite <- !app_assoc. reflexivity.
Qed.

Lemma join_piece_ok : forall g, Forall piece_ok g -> g <> [] -> piece_ok (join [sp] g).
Proof.
  induction g as [|x g IH]; intros Hg Hne; [contradiction|].
  inversion Hg as [|? ? Hx Hg']; subst.
  destruct g as [|y g]; [exact Hx|].
  destruct (IH Hg' ltac:(discriminate)) as (Hj1 & Hj2 & Hj3).
  destruct Hx as (Hx1 & Hx2 & Hx3).
  change (join [sp] (x :: y :: g)) with (x ++ [sp] ++ join [sp] (y :: g)).
  split; [|split].
  - destruct x; [contradiction|discriminate].
  - rewrite starts_ok_app by exact Hx1. exact Hx2.
  - rewrite app_assoc, ends_ok_app by exact Hj1. exact Hj3.
Qed.

(** [re.split(r'(?<=[.!?])\s+', s)] on the rest [s] of a single-spaced text,
    after a character [p] that is not whitespace: the pieces re-joined with
    single spaces give [s] back, and all pieces but the first (which
    continues the piece of [p]) are non-empty and stripped. *)
Lemma re_split_prev : forall n s p, (length s <= n)%nat ->
  is_space p = false -> forallb space_is_sp s = true ->
  pairs_ok no_double_space (p :: s) = true -> ends_ok s = true ->
  exists r rs, re_split (SPrev (Some p)) s = r :: rs /\ join [sp] (r :: rs) = s /\
    ends_ok r = true /\ Forall piece_ok rs.
Proof.
  induction n as [|n IH]; intros s p Hn Hp Hsp Hpairs Hend;
    (destruct s as [|c s];
     [exists [], []; split; [reflexivity|split; [reflexivity|split; [reflexivity|constructor]]]|]);
    [simpl in Hn; lia|].
  simpl in Hn, Hsp. apply andb_true_iff in Hsp as [Hc Hsp].
  apply pairs_ok_cons in Hpairs as [_ Hpairs].
  destruct (is_space c) eqn:Ec.
  - pose proof (space_is_sp_eq c Ec Hc). subst c.
    destruct s as [|d s]; [vm_compute in Hend; discriminate|].
    apply pairs_ok_cons in Hpairs as [Hsd Hpairs'].
    assert (Ed : is_space d = false).
    { unfold no_double_space in Hsd. rewrite Ec in Hsd.
      destruct (is_space d); [discriminate|reflexivity]. }
    simpl in Hsp. apply andb_true_iff in Hsp as [_ Hsp].
    assert (Hend' : ends_ok s = true) by (apply (ends_ok_tail d), (ends_ok_tail sp); exact Hend).
    destruct (IH s d ltac:(simpl in Hn; lia) Ed Hsp Hpairs' Hend') as (r & rs & Hr & Hj & He & Hf).
    destruct (is_sentence_end p) eqn:Ep.
    + exists [], ((d :: r) :: rs). split; [|split; [|split]].
      * simpl; rewrite ?Ec, ?Ep, ?Ed, ?Hr; reflexivity.
      * change (join [sp] ([] :: (d :: r) :: rs)) with (sp :: join [sp] ((d :: r) :: rs)).
        rewrite join_cons_head. do 2 f_equal. exact Hj.
      * reflexivity.
      * constructor; [|exact Hf]. split; [discriminate|split].
        -- simpl. rewrite Ed. reflexivity.
        -- apply ends_ok_cons_ns; assumption.
    + exists (sp :: d :: r), rs. split; [|split; [|split]].
      * simpl; rewrite ?Ec, ?Ep, ?Ed, ?Hr; reflexivity.
      * rewrite !join_cons_head. do 2 f_equal. exact Hj.
      * change (sp :: d :: r) with ([sp] ++ d :: r). rewrite ends_ok_app by discriminate.
        apply ends_ok_cons_ns; assumption.
      * exact Hf.
  - destruct (IH s c ltac:(lia) Ec Hsp Hpairs (ends_ok_tail c s Hend)) as (r & rs & Hr & Hj & He & Hf).
    exists (c :: r), rs. split; [|split; [|split]].
    + simpl; rewrite ?Ec, ?Hr; reflexivity.
    + rewrite join_cons_head. f_equal. exact Hj.
    + apply ends_ok_cons_ns; assumption.
    + exact Hf.
Qed.

Lemma single_spaced_parts : forall t, single_spaced t = true ->
  forallb space_is_sp t = true /\ pairs_ok no_double_space t = true /\
  starts_ok t = true /\ ends_ok t = true.
Proof.
  intros t H. unfold single_spaced in H. rewrite !andb_true_iff in H. tauto.
Qed.

(** The sentences of a non-empty single-spaced text are stripped and
    non-empty, and joined with single spaces they give the text back. *)
Lemma re_split_top : forall t, t <> [] -> single_spaced t = true ->
  Forall piece_ok (re_split (SPrev None) t) /\ join [sp] (re_split (SPrev None) t) = t.
Proof.
  intros [|c t] Hne Hss; [contradiction|].
  destruct (single_spaced_parts _ Hss) as (H1 & H2 & H3 & H4).
  simpl in H1. apply andb_true_iff in H1 as [_ H1].
  assert (Ec : is_space c = false) by (simpl in H3; destruct (is_space c); [discriminate|reflexivity]).
  destruct (re_split_prev (length t) t c (le_n _) Ec H1 H2 (ends_ok_tail c t H4))
    as (r & rs & Hr & Hj & He & Hf).
  assert (E : re_split (SPrev None) (c :: t) = (c :: r) :: rs)
    by (simpl; rewrite ?Ec; simpl; rewrite ?Hr; reflexivity).
  rewrite E. split.
  - constructor; [|exact Hf]. split; [discriminate|split].
    + simpl. rewrite Ec. reflexivity.
    + apply ends_ok_cons_ns; assumption.
  - rewrite join_cons_head. f_equal. exact Hj.
Qed.

Lemma filter_strip_pieces : forall l, Forall piece_ok l -> map strip (filter nonblank l) = l.
Proof.
  intros l Hl. induction Hl as [|x l (Hx1 & Hx2 & Hx3) Hl IH]; [reflexivity|].
  assert (Hnb : nonblank x = true).
  { unfold nonblank. rewrite (strip_id x Hx2 Hx3). destruct x; [contradiction|reflexivity]. }
  cbn [filter]. rewrite Hnb. cbn [map]. rewrite (strip_id x Hx2 Hx3), IH. reflexivity.
Qed.

Lemma chunk_by_sentence_ss : forall t, t <> [] -> single_spaced t = true ->
  chunk_by_sentence t = re_split (SPrev None) t.
Proof.
  intros t Hne Hss. destruct (re_split_top t Hne Hss) as [Hf _].
  destruct (single_spaced_parts _ Hss) as (_ & _ & H3 & H4).
  unfold chunk_by_sentence. rewrite (strip_id t H3 H4). apply filter_strip_pieces. exact Hf.
Qed.

Lemma pairs_ok_snoc : forall P x d,
  (forall a, P a d = true) -> pairs_ok P x = true -> pairs_ok P (x ++ [d]) = true.
Proof.
  intros P x d Hd. induction x as [|a x IH]; intros Hx; [reflexivity|].
  apply pairs_ok_cons in Hx as [Hh Ht]. simpl app. apply pairs_ok_cons. split; [|auto].
  destruct x; simpl; [apply Hd|exact Hh].
Qed.

(** [ensure_sentence_endings] returns single-spaced text. *)
Lemma ensure_single_spaced : forall text, single_spaced (ensure_sentence_endings text) = true.
Proof.
  intros text. unfold ensure_sentence_endings.
  set (z := collapse_ws false text).
  assert (Hz1 : forallb space_is_sp z = true).
  { apply collapse_chars; [reflexivity|].
    apply (forallb_impl (fun _ => true)); [|clear; induction text; simpl; auto].
    intros c _. unfold space_is_sp. destruct (is_space c); reflexivity. }
  assert (Hz2 : pairs_ok no_double_space z = true) by apply collapse_shape.
  assert (Hss : single_spaced (strip z) = true).
  { destruct (strip_infix z) as (pre & suf & E). destruct (strip_shape z) as [Hs He].
    unfold single_spaced. rewrite E in Hz1, Hz2.
    rewrite (forallb_infix _ _ _ _ Hz1), (pairs_ok_infix _ _ _ _ Hz2), Hs, He. reflexivity. }
  destruct (strip z) as [|c r] eqn:Es; [reflexivity|].
  destruct (is_sentence_end (last (c :: r) c)); [exact Hss|].
  destruct (single_spaced_parts _ Hss) as (H1 & H2 & H3 & H4).
  unfold single_spaced. rewrite !andb_true_iff. split; [split; [split|]|].
  - rewrite forallb_app, H1. reflexivity.
  - apply pairs_ok_snoc; [|exact H2].
    intros a. unfold no_double_space. change (is_space "."%char) with false.
    rewrite andb_false_r. reflexivity.
  - exact H3.
  - unfold ends_ok. rewrite rev_app_distr. reflexivity.
Qed.

Lemma lstrip_app_ns : forall y c, is_space c = false -> lstrip (y ++ [c]) <> [].
Proof.
  intro y; induction y as [|a y IH]; intros c Hc; simpl.
  - rewrite Hc. discriminate.
  - destruct (is_space a); [auto|discriminate].
Qed.

Lemma lstrip_spaces : forall x, forallb is_space x = true -> lstrip x = [].
Proof.
  intro x; induction x as [|c x IH]; intros H; [reflexivity|].
  simpl in *. apply andb_true_iff in H as [Hc Hx]. rewrite Hc. auto.
Qed.

Lemma lstrip_nil_spaces : forall x, lstrip x = [] -> forallb is_space x = true.
Proof.
  intro x; induction x as [|c x IH]; intros H; [reflexivity|].
  simpl in *. destruct (is_space c); [simpl; auto|discriminate].
Qed.

Lemma strip_nil_lstrip : forall x, strip x = [] -> lstrip x = [].
Proof.
  intros x H. pose proof (starts_ok_lstrip x) as Hs.
  destruct (lstrip x) as [|c r] eqn:E; [reflexivity|]. exfalso.
  unfold strip, rstrip in H. rewrite E in H. simpl rev in H.
  apply (f_equal (@rev ascii)) in H. rewrite rev_involutive in H.
  simpl in Hs. apply (lstrip_app_ns (rev r) c); [|exact H].
  destruct (is_space c); [discriminate|reflexivity].
Qed.

(** A blank text normalises to the empty text. *)
Lemma ensure_blank : forall text, strip text = [] -> ensure_sentence_endings text = [].
Proof.
  intros text H. apply strip_nil_lstrip, lstrip_nil_spaces in H.
  unfold ensure_sentence_endings, strip.
  rewrite lstrip_spaces; [reflexivity|].
  apply collapse_chars; [reflexivity|].
  apply (forallb_impl is_space); [|exact H]. intros c ->. reflexivity.
Qed.

Lemma strip_join_snoc : forall g s, Forall piece_ok g -> piece_ok s ->
  strip (join [sp] g ++ sp :: s) = join [sp] (g ++ [s]).
Proof.
  intros g s Hg Hs. destruct Hs as (Hs1 & Hs2 & Hs3). destruct g as [|x g'].
  - transitivity (strip s); [reflexivity|]. apply strip_id; assumption.
  - rewrite join_app by discriminate.
    destruct (join_piece_ok (x :: g') Hg ltac:(discriminate)) as (Hj1 & Hj2 & Hj3).
    apply (strip_id (join [sp] (x :: g') ++ [sp] ++ s)).
    + rewrite starts_ok_app by exact Hj1. exact Hj2.
    + rewrite app_assoc, ends_ok_app by exact Hs1. exact Hs3.
Qed.

(** The loop of [chunk_text_for_tts], from the chunks [chunks] and the
    current chunk made of the sentences [gcur]: it appends the chunks of
    groups [G] of whole sentences and leaves the group [gc] as current
    chunk; [G] and [gc] cut [gcur ++ sentences] in order. *)
Lemma pack_loop_groups : forall max sentences chunks gcur,
  Forall piece_ok sentences -> Forall piece_ok gcur ->
  (gcur <> [] -> grp_ok max gcur) ->
  exists G gc,
    pack_loop max chunks (join [sp] gcur) sentences
      = (chunks ++ map (join [sp]) G, join [sp] gc) /\
    concat G ++ gc = gcur ++ sentences /\
    Forall (grp_ok max) G /\ Forall piece_ok gc /\ (gc <> [] -> grp_ok max gc).
Proof.
  intros max sentences. induction sentences as [|s rest IH]; intros chunks gcur Hs Hg Hgok.
  - exists [], gcur. split; [simpl; rewrite app_nil_r; reflexivity|].
    split; [simpl; rewrite app_nil_r; reflexivity|].
    split; [constructor|split; assumption].
  - inversion Hs as [|? ? Hps Hrest]; subst.
    cbn [pack_loop].
    destruct (Nat.leb_spec (length (join [sp] gcur) + length s + 1) max) as [Hle|Hgt].
    + rewrite (strip_join_snoc gcur s Hg Hps).
      assert (Hg' : Forall piece_ok (gcur ++ [s]))
        by (apply Forall_app; split; [exact Hg|constructor; [exact Hps|constructor]]).
      assert (Hgok' : gcur ++ [s] <> [] -> grp_ok max (gcur ++ [s])).
      { intros _. split; [destruct gcur; discriminate|right].
        destruct gcur as [|x g']; [simpl in *; lia|].
        rewrite join_app by discriminate. rewrite length_app. simpl in *. lia. }
      destruct (IH chunks (gcur ++ [s]) Hrest Hg' Hgok') as (G & gc & E & Hc & HG & Hgc & Hgcok).
      exists G, gc. split; [exact E|]. split; [rewrite Hc, <- app_assoc; reflexivity|].
      auto.
    + assert (Hs1 : grp_ok max [s]) by (split; [discriminate|left; reflexivity]).
      destruct gcur as [|x g'].
      * destruct (IH chunks [s] Hrest (Forall_cons _ Hps (Forall_nil _)) (fun _ => Hs1))
          as (G & gc & E & Hc & HG & Hgc & Hgcok).
        exists G, gc. split; [exact E|]. split; [exact Hc|]. auto.
      * assert (Hne : join [sp] (x :: g') <> [])
          by (apply (join_piece_ok (x :: g') Hg); discriminate).
        destruct (IH (chunks ++ [join [sp] (x :: g')]) [s] Hrest
                     (Forall_cons _ Hps (Forall_nil _)) (fun _ => Hs1))
          as (G & gc & E & Hc & HG & Hgc & Hgcok).
        exists ((x :: g') :: G), gc. split; [|split; [|split; [|auto]]].
        -- destruct (join [sp] (x :: g')) as [|c l] eqn:EJ; [contradiction|].
           change (map (join [sp]) ((x :: g') :: G))
             with (join [sp] (x :: g') :: map (join [sp]) G).
           rewrite EJ. rewrite <- app_assoc in E. exact E.
        -- change (concat ((x :: g') :: G)) with ((x :: g') ++ concat G).
           rewrite <- app_assoc, Hc. reflexivity.
        -- constructor; [apply Hgok; discriminate|exact HG].
Qed.

(** [chunk_text_for_tts] on stripped non-empty sentences: its chunks are the
    groups of a cut of the sentence list, in order, each joined with single
    spaces. *)
Lemma chunk_text_groups : forall t max,
  Forall piece_ok (chunk_by_sentence t) -> chunk_by_sentence t <> [] ->
  exists groups,
    chunk_text_for_tts t max = map (join [sp]) groups /\
    concat groups = chunk_by_sentence t /\ Forall (grp_ok max) groups.
Proof.
  intros t max Hf Hne. unfold chunk_text_for_tts.
  destruct (pack_loop_groups max (chunk_by_sentence t) [] [] Hf (Forall_nil _)
              (fun H => ltac:(contradiction)))
    as (G & gc & E & Hc & HG & Hgc & Hgcok).
  change (join [sp] []) with (@nil ascii) in E. rewrite E. simpl app at 1.
  simpl app in Hc.
  destruct gc as [|y gc'].
  - rewrite app_nil_r in Hc. destruct G as [|g G']; [simpl in Hc; congruence|].
    exists (g :: G'). simpl. split; [reflexivity|split; [exact Hc|exact HG]].
  - assert (Hne' : join [sp] (y :: gc') <> [])
      by (apply (join_piece_ok (y :: gc') Hgc); discriminate).
    destruct (join [sp] (y :: gc')) as [|c l] eqn:EJ; [contradiction|].
    exists (G ++ [y :: gc']). rewrite map_app.
    change (map (join [sp]) [y :: gc']) with [join [sp] (y :: gc')]. rewrite EJ.
    split; [destruct (map (join [sp]) G); reflexivity|].
    split; [rewrite concat_app; simpl; rewrite app_nil_r; exact Hc|].
    apply Forall_app. split; [exact HG|constructor; [apply Hgcok; discriminate|constructor]].
Qed.

Lemma join_length_ge : forall g s, In s g ->
  (length s + length g <= length (join [sp] g) + 1)%nat.
Proof.
  intro g; induction g as [|x g IH]; intros s Hin; [destruct Hin|].
  destruct g as [|y g].
  - destruct Hin as [<-|[]]. simpl. lia.
  - change (join [sp] (x :: y :: g)) with (x ++ [sp] ++ join [sp] (y :: g)).
    rewrite !length_app. pose proof (IH y (or_introl eq_refl)) as Hy.
    destruct Hin as [<-|Hin].
    + cbn [length] in *. lia.
    + specialize (IH s Hin). cbn [length] in *. lia.
Qed.

(** A sentence longer than the limit is a chunk on its own. *)
Lemma oversized_alone : forall max groups s,
  Forall (grp_ok max) groups -> In s (concat groups) -> (max < length s)%nat ->
  In s (map (join [sp]) groups).
Proof.
  intros max groups s HG Hin Hlen. apply in_concat in Hin as (g & Hg & Hs).
  rewrite Forall_forall in HG. destruct (HG g Hg) as [Hne [H1|Hle]].
  - destruct g as [|x [|y g]]; [contradiction| |discriminate].
    destruct Hs as [<-|[]]. apply (in_map (join [sp])) in Hg. exact Hg.
  - exfalso. pose proof (join_length_ge g s Hs) as Hge.
    destruct g as [|x g]; [contradiction|].
    change (length (x :: g)) with (S (length g)) in Hge. lia.
Qed.

(** What [generate_voice_from_text] sends when the normalised text is over
    the limit: the chunks of [chunk_text_for_tts]. *)
Lemma plan_long : forall text,
  (MAX_CHUNK_SIZE < length (ensure_sentence_endings text))%nat ->
  tts_chunk_plan text = chunk_text_for_tts (ensure_sentence_endings text) MAX_CHUNK_SIZE.
Proof.
  intros text Hlen. unfold tts_chunk_plan.
  destruct (strip text) as [|c r] eqn:Es.
  - rewrite (ensure_blank text Es) in Hlen. simpl in Hlen. lia.
  - destruct (Nat.leb_spec (length (ensure_sentence_endings text)) MAX_CHUNK_SIZE);
      [lia|reflexivity].
Qed.

(** The sentences of a normalised non-empty text. *)
Lemma sentences_of_normalised : forall text,
  ensure_sentence_endings text <> [] ->
  Forall piece_ok (chunk_by_sentence (ensure_sentence_endings text)) /\
  join [sp] (chunk_by_sentence (ensure_sentence_endings text)) = ensure_sentence_endings text /\
  chunk_by_sentence (ensure_sentence_endings text) <> [].
Proof.
  intros text Hne. pose proof (ensure_single_spaced text) as Hss.
  rewrite (chunk_by_sentence_ss _ Hne Hss).
  destruct (re_split_top _ Hne Hss) as [Hf Hj].
  split; [exact Hf|split; [exact Hj|]].
  intros E. rewrite E in Hj. simpl in Hj. symmetry in Hj. contradiction.
Qed.

(** C6: when the normalised text is over 1500 characters and each of its
    sentences (split after [.], [!] or [?] followed by whitespace) is under
    1500 characters, [generate_voice_from_text] sends at least two chunks,
    each of at most 1500 characters, which are the groups of a cut of the
    sentence list, in order, joined with single spaces (and the sentences
    joined with single spaces are the normalised text). A sentence over
    1500 characters is sent as a chunk of its own. *)
Theorem tts_chunking :
  (forall text,
     (MAX_CHUNK_SIZE < length (ensure_sentence_endings text))%nat ->
     Forall (fun s => length s < MAX_CHUNK_SIZE)%nat
       (chunk_by_sentence (ensure_sentence_endings text)) ->
     (2 <= length (tts_chunk_plan text))%nat /\
     Forall (fun c => length c <= MAX_CHUNK_SIZE)%nat (tts_chunk_plan text) /\
     join [sp] (chunk_by_sentence (ensure_sentence_endings text)) = ensure_sentence_endings text /\
     exists groups,
       Forall (fun g => g <> []) groups /\
       concat groups = chunk_by_sentence (ensure_sentence_endings text) /\
       tts_chunk_plan text = map (join [sp]) groups) /\
  (forall text s,
     In s (chunk_by_sentence (ensure_sentence_endings text)) ->
     (MAX_CHUNK_SIZE < length s)%nat ->
     In s (tts_chunk_plan text)).
Proof.
  split.
  - intros text Hlen Hsent.
    assert (Hne : ensure_sentence_endings text <> [])
      by (intros E; rewrite E in Hlen; simpl in Hlen; lia).
    destruct (sentences_of_normalised text Hne) as (Hf & Hj & Hsne).
    rewrite (plan_long text Hlen).
    destruct (chunk_text_groups (ensure_sentence_endings text) MAX_CHUNK_SIZE Hf Hsne)
      as (groups & Ec & Hc & HG).
    rewrite Ec. rewrite Forall_forall in HG.
    assert (Hall : Forall (fun c => length c <= MAX_CHUNK_SIZE)%nat (map (join [sp]) groups)).
    { apply Forall_map, Forall_forall. intros g Hg.
      destruct (HG g Hg) as [Hgne [H1|H2]]; [|exact H2].
      destruct g as [|x [|y g]]; [contradiction| |discriminate].
      assert (Hx : In x (chunk_by_sentence (ensure_sentence_endings text))).
      { rewrite <- Hc. apply in_concat. exists [x]. split; [exact Hg|left; reflexivity]. }
      rewrite Forall_forall in Hsent. specialize (Hsent x Hx).
      change (join [sp] [x]) with x. lia. }
    split; [|split; [exact Hall|split; [exact Hj|]]].
    + rewrite length_map. destruct groups as [|g [|g' groups']].
      * simpl in Hc. symmetry in Hc. contradiction.
      * exfalso. simpl in Hc. rewrite app_nil_r in Hc.
        rewrite Forall_forall in Hall.
        specialize (Hall (join [sp] g) (or_introl eq_refl)).
        rewrite <- Hc in Hj. rewrite <- Hj in Hlen. lia.
      * simpl. lia.
    + exists groups. split; [|split; [exact Hc|reflexivity]].
      apply Forall_forall. intros g Hg. apply (HG g Hg).
  - intros text s Hin Hlen.
    assert (Hne : ensure_sentence_endings text <> [])
      by (intros E; rewrite E in Hin; vm_compute in Hin; exact Hin).
    destruct (sentences_of_normalised text Hne) as (Hf & Hj & Hsne).
    assert (Hlong : (MAX_CHUNK_SIZE < length (ensure_sentence_endings text))%nat).
    { pose proof (join_length_ge _ s Hin) as Hge. rewrite Hj in Hge.
      destruct (chunk_by_sentence (ensure_sentence_endings text)) as [|a l];
        [destruct Hin|].
      change (length (a :: l)) with (S (length l)) in Hge. lia. }
    rewrite (plan_long text Hlong).
    destruct (chunk_text_groups _ MAX_CHUNK_SIZE Hf Hsne) as (groups & Ec & Hc & HG).
    rewrite Ec. apply (oversized_alone MAX_CHUNK_SIZE groups s HG); [rewrite Hc; exact Hin|exact Hlen].
Qed.

Lemma tts_chunking_witness :
  (2 <= length (tts_chunk_plan Samples.long_text))%nat /\
  In Samples.long_word_sentence (tts_chunk_plan Samples.oversized_text).
Proof.
  split.
  - destruct tts_chunking as [Ha _].
    refine (proj1 (Ha Samples.long_text _ _)).
    + apply Nat.ltb_lt. vm_compute. reflexivity.
    + apply Forall_forall. intros s Hs.
      assert (Hall : forallb (fun s => Nat.ltb (length s) MAX_CHUNK_SIZE)
                       (chunk_by_sentence (ensure_sentence_endings Samples.long_text)) = true)
        by (vm_compute; reflexivity).
      rewrite forallb_forall in Hall. apply Nat.ltb_lt, Hall, Hs.
  - destruct tts_chunking as [_ Hb]. apply Hb.
    + assert (E : chunk_by_sentence (ensure_sentence_endings Samples.oversized_text)
                  = [list_ascii_of_string "Hello there."; Samples.long_word_sentence])
        by (vm_compute; reflexivity).
      rewrite E. right. left. reflexivity.
    + apply Nat.ltb_lt. vm_compute. reflexivity.
Defined.

End ChunkProofs.

(* ================================================================== *)
(** * Further properties of the services *)

(* ------------------------------------------------------------------ *)
(** ** Strings built by [str.join] *)

Module JoinFacts.
Local Open Scope string_scope.

Lemma string_app_assoc : forall a b c : string, (a ++ b) ++ c = a ++ (b ++ c).
Proof.
  intro a; induction a as [|ch a IH]; intros b c; simpl; [reflexivity|].
  now rewrite IH.
Qed.

Lemma string_app_nil : forall a : string, a ++ "" = a.
Proof. intro a; induction a as [|ch a IH]; simpl; [reflexivity|now rewrite IH]. Qed.

Lemma concat_cons2 : forall sep a b l,
  String.concat sep (a :: b :: l) = a ++ sep ++ String.concat sep (b :: l).
Proof. reflexivity. Qed.

Lemma concat_app_str : forall sep l1 l2, l1 <> [] -> l2 <> [] ->
  String.concat sep (app l1 l2)
  = String.concat sep l1 ++ sep ++ String.concat sep l2.
Proof.
  intros sep l1; induction l1 as [|a l1 IH]; intros l2 H1 H2; [congruence|].
  destruct l1 as [|b l1].
  - destruct l2 as [|c l2]; [congruence|]. reflexivity.
  - change (app (a :: b :: l1) l2) with (a :: app (b :: l1) l2).
    destruct (app (b :: l1) l2) as [|d m] eqn:E; [discriminate|].
    rewrite concat_cons2, <- E, IH by (discriminate || assumption).
    rewrite concat_cons2, !string_app_assoc. reflexivity.
Qed.

(** The joined text begins with its first part. *)
Lemma concat_head : forall sep a l, exists r, String.concat sep (a :: l) = a ++ r.
Proof.
  intros sep a [|b l].
  - exists "". symmetry. apply string_app_nil.
  - exists (sep ++ String.concat sep (b :: l)). reflexivity.
Qed.

Lemma concat_nonempty : forall sep l,
  Forall (fun s => s <> "") l -> l <> [] -> String.concat sep l <> "".
Proof.
  intros sep [|a l] Hf Hne; [congruence|].
  inversion Hf as [|? ? Ha _]; subst.
  destruct (concat_head sep a l) as [r ->].
  destruct a; [congruence|discriminate].
Qed.

Lemma filter_nil_forall : forall {A} (f : A -> bool) l,
  filter f l = [] <-> Forall (fun e => f e = false) l.
Proof.
  intros A f l; induction l as [|a l IH]; simpl; split; intro H; auto.
  - destruct (f a) eqn:E; [discriminate|]. constructor; [exact E|]. apply IH, H.
  - inversion H as [|? ? Ha Hl]; subst. rewrite Ha. apply IH, Hl.
Qed.

Lemma filter_length_le' : forall {A} (f : A -> bool) l, (length (filter f l) <= length l)%nat.
Proof.
  intros A f l; induction l as [|a l IH]; simpl; [lia|].
  destruct (f a); simpl; lia.
Qed.

End JoinFacts.

(* ------------------------------------------------------------------ *)
(** ** [process_dom_events] and [extract_text_from_events] *)

Module InstructionProofs.
Import DomEventProcessing JoinFacts.
Local Open Scope string_scope.

(** The fields an instruction copies from its event. *)
Definition instr_fields (i : FrontendInstruction) :=
  (fi_timestamp i, action i, fi_value i, fi_selector i, fi_bbox i).
Definition event_fields (e : InteractionEvent) :=
  (timestamp e, type e, value e, option_map selector (target e), option_map bbox (target e)).

Lemma collect_fields : forall evs,
  map instr_fields (collect_instructions evs)
  = map event_fields (filter (fun e => negb (is_zero_scroll e)) evs).
Proof.
  intro evs; induction evs as [|e evs IH]; [reflexivity|].
  cbn [collect_instructions filter]. unfold convert_event_to_instruction.
  destruct (is_zero_scroll e); simpl; [exact IH|].
  rewrite IH. reflexivity.
Qed.

Lemma collect_confidence : forall evs,
  Forall (fun i => fi_confidence i = 1.0%float) (collect_instructions evs).
Proof.
  intro evs; induction evs as [|e evs IH]; [constructor|].
  cbn [collect_instructions]. unfold convert_event_to_instruction.
  destruct (is_zero_scroll e); [exact IH|]. constructor; [reflexivity|exact IH].
Qed.

Lemma collect_length : forall evs,
  (length (collect_instructions evs) + length (filter is_zero_scroll evs) = length evs)%nat.
Proof.
  intro evs; induction evs as [|e evs IH]; [reflexivity|].
  cbn [collect_instructions filter]. unfold convert_event_to_instruction.
  destruct (is_zero_scroll e); simpl; lia.
Qed.

(** X1: the instructions of [process_dom_events] are the session's events
    in order, minus the scrolls to (0, 0): each copies its event's
    timestamp, type, value and the target's selector and bounding box, and
    has confidence 1.0. *)
Theorem process_dom_events_instructions : forall session : RecordingSession,
  map instr_fields (instructions (process_dom_events session))
  = map event_fields (filter (fun e => negb (is_zero_scroll e)) (session_events session))
  /\ Forall (fun i => fi_confidence i = 1.0%float) (instructions (process_dom_events session)).
Proof.
  intro session. split; [apply collect_fields|apply collect_confidence].
Qed.

(** X2: the metadata count [instructionsGenerated] is [totalEvents] minus
    the number of scrolls to (0, 0); the two are equal exactly when the
    session has no such scroll. *)
Theorem process_dom_events_counts : forall session : RecordingSession,
  let md := resp_metadata (process_dom_events session) in
  (totalEvents md = instructionsGenerated md
                    + length (filter is_zero_scroll (session_events session)))%nat
  /\ (instructionsGenerated md = totalEvents md
      <-> Forall (fun e => is_zero_scroll e = false) (session_events session)).
Proof.
  intro session. simpl.
  pose proof (collect_length (session_events session)) as H.
  split; [lia|].
  rewrite <- filter_nil_forall.
  destruct (filter is_zero_scroll (session_events session)) as [|z zs]; simpl in *;
    split; intro E; try reflexivity; try discriminate; lia.
Qed.

Lemma text_part_nonempty : forall e p, text_part e = Some p -> p <> "".
Proof.
  intros e p. unfold text_part.
  repeat match goal with
         | |- context [match ?x with _ => _ end] => destruct x
         end; intro H; inversion H; discriminate.
Qed.

Lemma text_parts_nonempty : forall evs, Forall (fun s => s <> "") (text_parts evs).
Proof.
  intro evs; induction evs as [|e evs IH]; [constructor|].
  cbn [text_parts]. destruct (text_part e) as [p|] eqn:E; [|exact IH].
  constructor; [exact (text_part_nonempty e p E)|exact IH].
Qed.

Lemma text_parts_app : forall l1 l2, text_parts (app l1 l2) = app (text_parts l1) (text_parts l2).
Proof.
  intro l1; induction l1 as [|e l1 IH]; intro l2; [reflexivity|].
  cbn [text_parts app]. destruct (text_part e); rewrite IH; reflexivity.
Qed.

(** X3: [extract_text_from_events] over two event lists in a row is the
    text of the first and the text of the second, separated by one space,
    an empty text contributing nothing. *)
Theorem extract_text_concat : forall l1 l2 : list InteractionEvent,
  let t1 := extract_text_from_events l1 in
  let t2 := extract_text_from_events l2 in
  extract_text_from_events (app l1 l2)
  = if String.eqb t1 "" then t2 else if String.eqb t2 "" then t1 else t1 ++ " " ++ t2.
Proof.
  intros l1 l2. unfold extract_text_from_events. rewrite text_parts_app.
  pose proof (text_parts_nonempty l1) as N1. pose proof (text_parts_nonempty l2) as N2.
  destruct (text_parts l1) as [|a p1] eqn:E1.
  - reflexivity.
  - destruct (text_parts l2) as [|b p2] eqn:E2.
    + rewrite app_nil_r.
      destruct (String.eqb (String.concat " " (a :: p1)) "") eqn:Ea; [|reflexivity].
      apply String.eqb_eq in Ea. exfalso. revert Ea. apply concat_nonempty; [exact N1|discriminate].
    + rewrite concat_app_str by discriminate.
      assert (String.concat " " (a :: p1) <> "") as Na by (apply concat_nonempty; [exact N1|discriminate]).
      assert (String.concat " " (b :: p2) <> "") as Nb by (apply concat_nonempty; [exact N2|discriminate]).
      apply String.eqb_neq in Na. apply String.eqb_neq in Nb. rewrite Na, Nb. reflexivity.
Qed.

Definition carries_text (e : InteractionEvent) : bool :=
  match type e with click | type_ | focus => true | _ => false end.

(** X4: blur, scroll and step_change events never contribute to
    [extract_text_from_events]: the text is that of the click, type and
    focus events alone. *)
Theorem extract_text_ignores_other_events : forall evs : list InteractionEvent,
  extract_text_from_events evs = extract_text_from_events (filter carries_text evs).
Proof.
  intro evs. unfold extract_text_from_events. f_equal.
  induction evs as [|e evs IH]; [reflexivity|].
  cbn [text_parts filter]. unfold carries_text at 1.
  destruct (type e) eqn:Ht; cbn [text_parts];
    [rewrite IH; reflexivity|rewrite IH; reflexivity|rewrite IH; reflexivity|..];
    unfold text_part at 1; rewrite Ht; exact IH.
Qed.

End InstructionProofs.

(* ------------------------------------------------------------------ *)
(** ** The timeline and the event descriptions *)

Module TimelineProofs.
Import RagService RagContext JoinFacts.
Local Open Scope string_scope.

(** [_describe_event] returns a non-empty text for every event: its final
    [return None] is unreachable. *)
Lemma describe_some : forall sf e, exists c s, _describe_event sf e = Some (String c s).
Proof.
  intros sf e. unfold _describe_event.
  repeat match goal with
         | |- context [match ?x with _ => _ end] => destruct x
         end; do 2 eexists; reflexivity.
Qed.

Lemma step_event_lines_length : forall sf fs evs,
  length (step_event_lines sf fs evs) = length evs.
Proof.
  intros sf fs evs; induction evs as [|e evs IH]; [reflexivity|].
  cbn [step_event_lines]. destruct (describe_some sf e) as (c & s & H). rewrite H.
  simpl. f_equal. exact IH.
Qed.

Lemma lines_of_steps : forall sf fs steps,
  length (flat_map (fun st => step_event_lines sf fs (events st)) steps)
  = length (concat (map events steps)).
Proof.
  intros sf fs steps; induction steps as [|st steps IH]; [reflexivity|].
  simpl. rewrite !length_app, step_event_lines_length, IH. reflexivity.
Qed.

(** X5: every event gets a description line: [_build_step_context] writes
    one line per event of its step (the [if event_desc] test never fails),
    and the narrative of [build_rag_context_from_events] has one line per
    event of the session. *)
Theorem one_line_per_event : forall sf fs (evs : list InteractionEvent),
  length (step_event_lines sf fs evs) = length evs /\
  length (narrative_event_lines sf fs evs) = length evs.
Proof.
  intros sf fs evs. split; [apply step_event_lines_length|].
  unfold narrative_event_lines. rewrite lines_of_steps.
  destruct evs as [|e0 rest]; [reflexivity|]. unfold _group_events_into_steps.
  rewrite SegmenterProofs.Rag.rag_group_loop_concat by discriminate. reflexivity.
Qed.

(** X6: [build_timeline_context] keeps exactly the click, type and
    step_change events, in order, with their timestamps and types;
    [total_events] counts all events, [significant_events] the kept ones
    (never more), and every kept event has a non-empty description. *)
Theorem timeline_significant : forall sf ms (evs : list InteractionEvent),
  let t := build_timeline_context sf ms evs in
  total_events t = length evs /\
  significant_events t = length (timeline t) /\
  map (fun it => (ti_timestamp it, ti_action it)) (timeline t)
  = map (fun e => (timestamp e, type e)) (filter is_significant evs) /\
  (significant_events t <= total_events t)%nat /\
  Forall (fun it => exists d, ti_description it = Some d /\ d <> "") (timeline t).
Proof.
  intros sf ms evs. simpl. rewrite length_map. repeat split.
  - rewrite map_map. reflexivity.
  - apply filter_length_le'.
  - apply Forall_map. apply Forall_forall. intros e _. simpl.
    destruct (describe_some sf e) as (c & s & H). rewrite H.
    eexists; split; [reflexivity|discriminate].
Qed.

(** X7: the timeline text of the prompts is "No significant actions
    recorded." exactly when the events hold no click, type or step_change
    event. *)
Theorem format_timeline_empty : forall sf f1 ms (evs : list InteractionEvent),
  _format_timeline f1 (build_timeline_context sf ms evs) = "No significant actions recorded."
  <-> Forall (fun e => is_significant e = false) evs.
Proof.
  intros sf f1 ms evs. rewrite <- filter_nil_forall.
  unfold _format_timeline, build_timeline_context. cbn [timeline].
  destruct (filter is_significant evs) as [|e l]; cbn [map].
  - split; reflexivity.
  - split; intro H; [|discriminate].
    match type of H with
    | String.concat _ (?a :: ?m) = _ => destruct (concat_head nl_str a m) as [r Hr]
    end.
    rewrite Hr in H. discriminate.
Qed.

End TimelineProofs.

(* ------------------------------------------------------------------ *)
(** ** [extract_ui_elements_summary] *)

Module UiSummaryProofs.
Import RagContext.
Local Open Scope string_scope.

(** The texts an event names: its target's non-empty [text],
    [data-testid] and [aria-label]. *)
Definition label_of (e : InteractionEvent) (s : string) : Prop :=
  match target e with
  | Some t =>
      s <> "" /\
      (text t = Some s \/ dict_get "data-testid" (attributes t) = Some s \/
       dict_get "aria-label" (attributes t) = Some s)
  | None => False
  end.

(** Strictly ascending under Python's string order. *)
Fixpoint ssorted (l : list string) : Prop :=
  match l with
  | [] => True
  | a :: l' => Forall (fun b => str_ltb a b = true) l' /\ ssorted l'
  end.

Definition add_opt (o : option string) (acc : list string) : list string :=
  match o with Some (String _ _ as s) => set_add s acc | _ => acc end.

Lemma set_add_in : forall s l x, In x (set_add s l) <-> In x l \/ x = s.
Proof.
  intros s l x. unfold set_add.
  destruct (existsb (String.eqb s) l) eqn:E.
  - apply existsb_exists in E. destruct E as (y & Hy & Hs).
    apply String.eqb_eq in Hs. subst y. split; [tauto|]. intros [H|H]; [exact H|subst; exact Hy].
  - rewrite in_app_iff. simpl. split; intros [H|H]; auto.
    + destruct H as [H|[]]. auto.
Qed.

Lemma set_add_nodup : forall s l, NoDup l -> NoDup (set_add s l).
Proof.
  intros s l Hl. unfold set_add.
  destruct (existsb (String.eqb s) l) eqn:E; [exact Hl|].
  apply NoDup_app; [exact Hl|constructor; [intros []|constructor]|].
  intros x Hx [Hs|[]]. subst x.
  assert (existsb (String.eqb s) l = true) as E'
    by (apply existsb_exists; exists s; split; [exact Hx|apply String.eqb_refl]).
  congruence.
Qed.

Lemma add_opt_in : forall o acc x,
  In x (add_opt o acc) <-> In x acc \/ (x <> "" /\ o = Some x).
Proof.
  intros [[|c s]|] acc x; simpl.
  - split; [tauto|]. intros [H|[Hx H]]; [exact H|inversion H; congruence].
  - rewrite set_add_in. split; intros [H|H]; auto.
    + right. split; [subst; discriminate|congruence].
    + right. destruct H as [_ H]. congruence.
  - split; [tauto|]. intros [H|[_ H]]; [exact H|discriminate].
Qed.

Lemma add_opt_nodup : forall o acc, NoDup acc -> NoDup (add_opt o acc).
Proof. intros [[|c s]|] acc H; simpl; auto using set_add_nodup. Qed.

Lemma add_target_eq : forall acc e,
  add_target_elements acc e =
  match target e with
  | Some t => add_opt (dict_get "aria-label" (attributes t))
                (add_opt (dict_get "data-testid" (attributes t)) (add_opt (text t) acc))
  | None => acc
  end.
Proof. intros acc e. unfold add_target_elements, add_opt. destruct (target e); reflexivity. Qed.

Lemma add_target_in : forall acc e x,
  In x (add_target_elements acc e) <-> In x acc \/ label_of e x.
Proof.
  intros acc e x. rewrite add_target_eq. unfold label_of.
  destruct (target e) as [t|]; [|tauto].
  rewrite !add_opt_in. tauto.
Qed.

Lemma fold_in : forall evs acc x,
  In x (fold_left add_target_elements evs acc)
  <-> In x acc \/ exists e, In e evs /\ label_of e x.
Proof.
  intro evs; induction evs as [|e evs IH]; intros acc x; simpl.
  - split; [tauto|]. intros [H|(e & [] & _)]. exact H.
  - rewrite IH, add_target_in. split.
    + intros [[H|H]|(e' & He' & H)]; [tauto|right; eauto|right; eauto].
    + intros [H|(e' & [He'|He'] & H)]; [tauto|subst; tauto|right; eauto].
Qed.

Lemma fold_nodup : forall evs acc, NoDup acc -> NoDup (fold_left add_target_elements evs acc).
Proof.
  intro evs; induction evs as [|e evs IH]; intros acc H; simpl; [exact H|].
  apply IH. rewrite add_target_eq. destruct (target e); [|exact H].
  auto using add_opt_nodup.
Qed.

(** Python's string order is a strict total order. *)
Lemma str_ltb_irrefl : forall a, str_ltb a a = false.
Proof.
  intro a; induction a as [|c a IH]; simpl; [reflexivity|].
  rewrite Nat.ltb_irrefl, Nat.eqb_refl. exact IH.
Qed.

Lemma str_ltb_trans : forall a b c,
  str_ltb a b = true -> str_ltb b c = true -> str_ltb a c = true.
Proof.
  intro a; induction a as [|ca a IH]; intros [|cb b] [|cc c]; simpl;
    try discriminate; try reflexivity.
  intros H1 H2.
  destruct (Nat.ltb_spec (nat_of_ascii ca) (nat_of_ascii cb));
  destruct (Nat.ltb_spec (nat_of_ascii cb) (nat_of_ascii cc));
  destruct (Nat.ltb_spec (nat_of_ascii ca) (nat_of_ascii cc)); try reflexivity;
  destruct (Nat.eqb_spec (nat_of_ascii ca) (nat_of_ascii cb)); try discriminate;
  destruct (Nat.eqb_spec (nat_of_ascii cb) (nat_of_ascii cc)); try discriminate;
  destruct (Nat.eqb_spec (nat_of_ascii ca) (nat_of_ascii cc)); try lia.
  eauto.
Qed.

Lemma str_ltb_total : forall a b, a <> b -> str_ltb a b = true \/ str_ltb b a = true.
Proof.
  intro a; induction a as [|ca a IH]; intros [|cb b] Hne; simpl;
    [congruence|left; reflexivity|right; reflexivity|].
  destruct (Nat.ltb_spec (nat_of_ascii ca) (nat_of_ascii cb)); [auto|].
  destruct (Nat.ltb_spec (nat_of_ascii cb) (nat_of_ascii ca)); [auto|].
  assert (nat_of_ascii ca = nat_of_ascii cb) as E by lia.
  rewrite E, Nat.eqb_refl.
  assert (ca = cb) as Ec.
  { rewrite <- (ascii_nat_embedding ca), <- (ascii_nat_embedding cb), E. reflexivity. }
  subst cb. apply IH. congruence.
Qed.

Lemma insert_in : forall s l x, In x (insert_sorted s l) <-> s = x \/ In x l.
Proof.
  intros s l x; induction l as [|h l IH]; simpl; [tauto|].
  destruct (str_ltb s h); simpl; [tauto|]. rewrite IH. tauto.
Qed.

Lemma insert_ssorted : forall s l, ssorted l -> ~ In s l -> ssorted (insert_sorted s l).
Proof.
  intros s l; induction l as [|h l IH]; intros Hs Hn; simpl.
  - split; constructor.
  - destruct Hs as [Hh Hl]. destruct (str_ltb s h) eqn:E; simpl.
    + split; [|split; assumption].
      constructor; [exact E|]. eapply Forall_impl; [|exact Hh].
      intros b Hb. eapply str_ltb_trans; eassumption.
    + split; [|apply IH; [exact Hl|intro H; apply Hn; right; exact H]].
      apply Forall_forall. intros x Hx. apply insert_in in Hx. destruct Hx as [<-|Hx].
      * destruct (str_ltb_total s h) as [H|H]; [intro; subst; apply Hn; left; reflexivity|congruence|exact H].
      * rewrite Forall_forall in Hh. exact (Hh x Hx).
Qed.

Lemma sorted_spec : forall l, NoDup l ->
  ssorted (sorted l) /\ (forall x, In x (sorted l) <-> In x l).
Proof.
  intro l; induction l as [|a l IH]; intro Hd; simpl.
  - split; [exact I|tauto].
  - inversion Hd as [|? ? Ha Hl]; subst. destruct (IH Hl) as [Hs Hi].
    split.
    + apply insert_ssorted; [exact Hs|rewrite Hi; exact Ha].
    + intro x. rewrite insert_in, Hi. tauto.
Qed.

Lemma ssorted_unique : forall l1 l2, ssorted l1 -> ssorted l2 ->
  (forall x, In x l1 <-> In x l2) -> l1 = l2.
Proof.
  intro l1; induction l1 as [|a l1 IH]; intros [|b l2] H1 H2 Hi.
  - reflexivity.
  - exfalso. apply (proj2 (Hi b)). left. reflexivity.
  - exfalso. apply (proj1 (Hi a)). left. reflexivity.
  - destruct H1 as [Ha H1]. destruct H2 as [Hb H2].
    rewrite Forall_forall in Ha, Hb.
    assert (a = b) as Eab.
    { destruct (proj1 (Hi a) (or_introl eq_refl)) as [E|Ia]; [congruence|].
      destruct (proj2 (Hi b) (or_introl eq_refl)) as [E|Ib]; [congruence|].
      pose proof (str_ltb_trans a b a (Ha b Ib) (Hb a Ia)) as C.
      rewrite str_ltb_irrefl in C. discriminate. }
    subst b. f_equal. apply IH; [exact H1|exact H2|].
    intro x. split; intro Hx.
    + destruct (proj1 (Hi x) (or_intror Hx)) as [E|E]; [|exact E].
      subst x. pose proof (Ha a Hx) as C. rewrite str_ltb_irrefl in C. discriminate.
    + destruct (proj2 (Hi x) (or_intror Hx)) as [E|E]; [|exact E].
      subst x. pose proof (Hb a Hx) as C. rewrite str_ltb_irrefl in C. discriminate.
Qed.

(** X8: [extract_ui_elements_summary] reports "(none identified)" when no
    event names an element, and otherwise lists, separated by ", ", each
    named text once, in ascending order. *)
Theorem ui_summary_lists_labels : forall evs : list InteractionEvent,
  ((forall e s, In e evs -> ~ label_of e s) ->
   extract_ui_elements_summary evs = "UI Elements: (none identified)") /\
  ((exists e s, In e evs /\ label_of e s) ->
   exists L, extract_ui_elements_summary evs = "UI Elements: " ++ String.concat ", " L /\
             ssorted L /\
             (forall s, In s L <-> exists e, In e evs /\ label_of e s)).
Proof.
  intro evs. unfold extract_ui_elements_summary.
  pose proof (fold_in evs [] ) as Hin.
  pose proof (fold_nodup evs [] (NoDup_nil _)) as Hnd.
  split.
  - intro Hno. destruct (fold_left add_target_elements evs []) as [|x l] eqn:E; [reflexivity|].
    exfalso. destruct (proj1 (Hin x) (or_introl eq_refl)) as [[]|(e & He & Hl)].
    exact (Hno e x He Hl).
  - intros (e & s & He & Hl).
    destruct (fold_left add_target_elements evs []) as [|x l] eqn:E.
    + exfalso. destruct (proj2 (Hin s) (or_intror (ex_intro _ e (conj He Hl)))).
    + destruct (sorted_spec (x :: l) Hnd) as [Hs Hi].
      exists (sorted (x :: l)). split; [reflexivity|]. split; [exact Hs|].
      intro y. rewrite Hi, Hin. simpl. tauto.
Qed.

(** X9: the summary depends only on which texts the events name: reordering
    or repeating events does not change it. *)
Theorem ui_summary_order_free : forall l1 l2 : list InteractionEvent,
  (forall s, (exists e, In e l1 /\ label_of e s) <-> (exists e, In e l2 /\ label_of e s)) ->
  extract_ui_elements_summary l1 = extract_ui_elements_summary l2.
Proof.
  intros l1 l2 Hsame. unfold extract_ui_elements_summary.
  pose proof (fold_in l1 []) as H1. pose proof (fold_in l2 []) as H2.
  pose proof (fold_nodup l1 [] (NoDup_nil _)) as N1.
  pose proof (fold_nodup l2 [] (NoDup_nil _)) as N2.
  assert (forall x, In x (fold_left add_target_elements l1 [])
                    <-> In x (fold_left add_target_elements l2 [])) as Hx.
  { intro x. rewrite H1, H2, Hsame. reflexivity. }
  clear H1 H2.
  destruct (fold_left add_target_elements l1 []) as [|a m1];
  destruct (fold_left add_target_elements l2 []) as [|b m2]; try reflexivity.
  - exfalso. apply (proj2 (Hx b)). left. reflexivity.
  - exfalso. apply (proj1 (Hx a)). left. reflexivity.
  - destruct (sorted_spec _ N1) as [S1 I1]. destruct (sorted_spec _ N2) as [S2 I2].
    rewrite (ssorted_unique (sorted (a :: m1)) (sorted (b :: m2)) S1 S2); [reflexivity|].
    intro x. rewrite I1, I2. apply Hx.
Qed.

Lemma ui_summary_order_free_witness :
  (forall s, (exists e, In e Samples.save_cancel /\ label_of e s) <->
             (exists e, In e Samples.cancel_save /\ label_of e s)) /\
  extract_ui_elements_summary Samples.save_cancel
  = extract_ui_elements_summary Samples.cancel_save.
Proof.
  assert (forall s, (exists e, In e Samples.save_cancel /\ label_of e s) <->
                    (exists e, In e Samples.cancel_save /\ label_of e s)) as H.
  { intro s; split; intros (e & Hin & Hl); exists e; split; try exact Hl;
      cbn [In Samples.save_cancel Samples.cancel_save] in *; tauto. }
  split; [exact H|]. exact (ui_summary_order_free Samples.save_cancel Samples.cancel_save H).
Defined.


End UiSummaryProofs.

(* ------------------------------------------------------------------ *)
(** ** [_parse_steps] *)

Module StepParserProofs.
Import StepParser TextInvariants TextProofs.

(** A line [Step n: text], as the step-by-step prompt asks for. *)
Definition step_line (n : nat) (t : pystr) : pystr :=
  list_ascii_of_string "Step " ++ list_ascii_of_string (str_nat n) ++
  list_ascii_of_string ": " ++ t.

Definition render_steps (l : list (nat * pystr)) : pystr :=
  join [nl] (map (fun '(n, t) => step_line n t) l).

Definition is_header (line : pystr) : bool :=
  match match_step (strip line) with Some _ => true | None => false end.

Lemma append_last_length : forall steps x, length (append_last steps x) = length steps.
Proof.
  intros steps x; induction steps as [|s steps IH]; [reflexivity|].
  destruct steps as [|s' steps]; [reflexivity|].
  change (length (s :: append_last (s' :: steps) x) = S (length (s' :: steps))).
  simpl. simpl in IH. rewrite IH. reflexivity.
Qed.

Lemma match_step_nil : match_step [] = None.
Proof. reflexivity. Qed.

Lemma parse_loop_length : forall lines steps,
  length (parse_loop steps lines) = length steps + length (filter is_header lines).
Proof.
  intro lines; induction lines as [|line lines IH]; intro steps; [simpl; lia|].
  cbn [parse_loop filter]. unfold is_header at 1.
  destruct (strip line) as [|c l] eqn:Es.
  - rewrite match_step_nil, IH. reflexivity.
  - destruct (match_step (c :: l)) as [[ds g2]|].
    + rewrite IH, length_app. cbn [length]. lia.
    + destruct (negb (starts_with _ _)).
      * rewrite IH. destruct steps; [reflexivity|]. rewrite append_last_length. reflexivity.
      * apply IH.
Qed.

(** X10: [_parse_steps] returns one step per line that matches
    [Step\s+(\d+):\s*(.+)] (after stripping); the other lines only extend
    the narration of the step before them, so a text with no such line
    gives no step. *)
Theorem parse_steps_count : forall narration : pystr,
  length (_parse_steps narration) = length (filter is_header (split_nl narration)).
Proof. intro narration. unfold _parse_steps. rewrite parse_loop_length. reflexivity. Qed.

(** The digits of [str(n)]. *)
Lemma digits_aux_spec : forall fuel n acc, n < fuel ->
  exists D, list_ascii_of_string (digits_aux fuel n acc) = D ++ list_ascii_of_string acc /\
            D <> [] /\ forallb is_digit D = true /\ parse_int D = n.
Proof.
  intro fuel; induction fuel as [|f IH]; intros n acc Hn; [lia|].
  cbn [digits_aux].
  assert (nat_of_ascii (ascii_of_nat (48 + n mod 10)) = 48 + n mod 10) as Ec.
  { apply nat_ascii_embedding. pose proof (Nat.mod_upper_bound n 10). lia. }
  assert (is_digit (ascii_of_nat (48 + n mod 10)) = true) as Ed.
  { unfold is_digit. rewrite Ec. pose proof (Nat.mod_upper_bound n 10).
    apply andb_true_intro; split; apply Nat.leb_le; lia. }
  set (c := ascii_of_nat (48 + n mod 10)) in *.
  destruct (Nat.ltb_spec n 10).
  - exists [c]. cbn [list_ascii_of_string app]. split; [reflexivity|].
    split; [discriminate|]. split; [cbn [forallb]; rewrite Ed; reflexivity|].
    unfold parse_int. cbn [fold_left]. rewrite Ec. rewrite Nat.mod_small by lia. lia.
  -     destruct (IH (n / 10) (String c acc)) as (D & HD & Hne & Hdig & Hp).
    { assert (n / 10 < n) by (apply Nat.div_lt; lia). lia. }
    exists (D ++ [c]). rewrite HD, <- app_assoc. cbn [list_ascii_of_string app].
    split; [reflexivity|]. split.
    + destruct D; [congruence|discriminate].
    + split.
      * rewrite forallb_app, Hdig. cbn [forallb]. rewrite Ed. reflexivity.
      * unfold parse_int in *. rewrite fold_left_app, Hp. cbn [fold_left]. rewrite Ec.
        pose proof (Nat.div_mod n 10 ltac:(lia)). lia.
Qed.

Lemma str_nat_spec : forall n,
  let D := list_ascii_of_string (str_nat n) in
  D <> [] /\ forallb is_digit D = true /\ parse_int D = n.
Proof.
  intro n. unfold str_nat.
  destruct (digits_aux_spec (S n) n EmptyString ltac:(lia)) as (D & HD & H).
  change (list_ascii_of_string EmptyString) with (@nil ascii) in HD.
  rewrite app_nil_r in HD. rewrite HD. exact H.
Qed.

Lemma digit_not_space : forall c, is_digit c = true -> is_space c = false.
Proof.
  intros c H. unfold is_digit in H. unfold is_space.
  apply andb_prop in H. destruct H as [H1 H2].
  apply Nat.leb_le in H1. apply Nat.leb_le in H2.
  destruct (9 <=? nat_of_ascii c) eqn:E1; destruct (nat_of_ascii c <=? 13) eqn:E2;
  destruct (28 <=? nat_of_ascii c) eqn:E3; destruct (nat_of_ascii c <=? 32) eqn:E4;
  simpl; try reflexivity;
  repeat match goal with
         | E : (_ <=? _) = true |- _ => apply Nat.leb_le in E
         end; lia.
Qed.

Lemma span_app : forall f D c r, forallb f D = true -> f c = false ->
  span f (D ++ c :: r) = (D, c :: r).
Proof.
  intros f D c r; induction D as [|d D IH]; intros HD Hc; simpl.
  - rewrite Hc. reflexivity.
  - simpl in HD. apply andb_prop in HD. destruct HD as [Hd HD]. rewrite Hd, IH by assumption.
    reflexivity.
Qed.

Lemma span_all : forall f x, forallb f x = true -> span f x = (x, []).
Proof.
  intros f x; induction x as [|c x IH]; intro H; simpl; [reflexivity|].
  simpl in H. apply andb_prop in H. destruct H as [Hc H]. rewrite Hc, IH by exact H.
  reflexivity.
Qed.

Lemma no_nl_forallb : forall t, ~ In nl t -> forallb (fun c => negb (Ascii.eqb c nl)) t = true.
Proof.
  intro t; induction t as [|c t IH]; intro H; simpl; [reflexivity|].
  destruct (Ascii.eqb_spec c nl) as [E|E]; [subst; exfalso; apply H; left; reflexivity|].
  simpl. apply IH. intro Hi. apply H. right. exact Hi.
Qed.

Lemma match_step_line : forall n t,
  t <> [] -> starts_ok t = true -> ~ In nl t ->
  match_step (step_line n t) = Some (list_ascii_of_string (str_nat n), t).
Proof.
  intros n [|c t] n0 Hs Hn; [congruence|].
  destruct (str_nat_spec n) as (Hne & Hdig & _).
  unfold step_line.
  set (D := list_ascii_of_string (str_nat n)) in *.
  destruct D as [|d D'] eqn:ED; [congruence|].
  assert (is_space d = false) as Hd.
  { apply digit_not_space. cbn [forallb] in Hdig. apply andb_prop in Hdig. apply Hdig. }
  assert (span is_digit ((d :: D') ++ ":"%char :: " "%char :: c :: t)
          = (d :: D', ":"%char :: " "%char :: c :: t)) as Hsp
    by (apply span_app; [exact Hdig|reflexivity]).
  cbn [app] in Hsp.
  assert (forall X, match_ci (list_ascii_of_string "step") (list_ascii_of_string "Step " ++ X)
                    = Some (" "%char :: X)) as Hci by reflexivity.
  unfold match_step. rewrite Hci. cbn [span app]. rewrite Hd.
  change (is_space " "%char) with true. change (list_ascii_of_string ": ") with [":"%char; " "%char].
  cbn [app]. rewrite Hsp.
  cbn [Ascii.eqb Bool.eqb andb ws_dotplus]. change (is_space " "%char) with true.
  assert (is_space c = false) as Hc.
  { cbn in Hs. destruct (is_space c); [discriminate|reflexivity]. }
  rewrite Hc. unfold dotplus at 1.
  rewrite span_all by (apply no_nl_forallb; exact Hn). reflexivity.
Qed.

Lemma split_no_nl : forall x, ~ In nl x -> split_nl x = [x].
Proof.
  intro x; induction x as [|c x IH]; intro H; [reflexivity|].
  simpl. destruct (Ascii.eqb_spec c nl) as [E|E]; [subst; exfalso; apply H; left; reflexivity|].
  rewrite IH by (intro Hi; apply H; right; exact Hi). reflexivity.
Qed.

Lemma split_app_nl : forall x r, ~ In nl x -> split_nl (x ++ nl :: r) = x :: split_nl r.
Proof.
  intro x; induction x as [|c x IH]; intros r H; [reflexivity|].
  simpl. destruct (Ascii.eqb_spec c nl) as [E|E]; [subst; exfalso; apply H; left; reflexivity|].
  rewrite IH by (intro Hi; apply H; right; exact Hi). reflexivity.
Qed.

Lemma split_join : forall lines, lines <> [] -> Forall (fun x => ~ In nl x) lines ->
  split_nl (join [nl] lines) = lines.
Proof.
  intro lines; induction lines as [|x lines IH]; intros Hne H; [congruence|].
  inversion H as [|? ? Hx Hl]; subst.
  destruct lines as [|y lines].
  - apply split_no_nl, Hx.
  - change (join [nl] (x :: y :: lines)) with (x ++ nl :: join [nl] (y :: lines)).
    rewrite split_app_nl by exact Hx. rewrite IH by (discriminate || exact Hl).
    reflexivity.
Qed.

Definition good_text (t : pystr) : Prop := t <> [] /\ strip t = t /\ ~ In nl t.

Lemma step_line_no_nl : forall n t, ~ In nl t -> ~ In nl (step_line n t).
Proof.
  intros n t Ht. unfold step_line.
  destruct (str_nat_spec n) as (_ & Hdig & _).
  intro H. apply in_app_or in H. destruct H as [H|H]; [simpl in H; intuition discriminate|].
  apply in_app_or in H. destruct H as [H|H].
  - rewrite forallb_forall in Hdig. pose proof (Hdig nl H). discriminate.
  - apply in_app_or in H. destruct H as [H|H]; [simpl in H; intuition discriminate|].
    exact (Ht H).
Qed.

Lemma parse_loop_lines : forall l steps,
  Forall (fun '(n, t) => good_text t) l ->
  parse_loop steps (map (fun '(n, t) => step_line n t) l)
  = steps ++ map (fun '(n, t) => {| step_number := n; narration := t |}) l.
Proof.
  intro l; induction l as [|[n t] l IH]; intros steps H.
  - cbn [map parse_loop]. rewrite app_nil_r. reflexivity.
  - inversion H as [|? ? Hg Hl]; subst. destruct Hg as (Hne & Hst & Hn).
    assert (ends_ok t = true) as He by (rewrite <- Hst; apply strip_shape).
    assert (starts_ok t = true) as Hs by (rewrite <- Hst; apply strip_shape).
    assert (strip (step_line n t) = step_line n t) as Hline.
    { apply strip_id; [reflexivity|]. unfold step_line.
      rewrite !app_assoc. rewrite ChunkProofs.ends_ok_app by exact Hne. exact He. }
    cbn [map parse_loop]. cbv zeta. rewrite Hline.
    rewrite match_step_line by assumption.
    destruct (step_line n t) as [|c0 r] eqn:Er; [discriminate|].
    rewrite (proj2 (proj2 (str_nat_spec n))), Hst, IH by exact Hl.
    rewrite <- app_assoc. reflexivity.
Qed.

(** X11: rendering numbered steps as lines [Step n: text], joined with
    newlines, and parsing them back with [_parse_steps] gives the same step
    numbers and narrations, for narrations that are non-empty, stripped and
    free of newlines. *)
Theorem parse_steps_round_trip : forall l : list (nat * pystr),
  Forall (fun '(n, t) => good_text t) l ->
  _parse_steps (render_steps l) = map (fun '(n, t) => {| step_number := n; narration := t |}) l.
Proof.
  intros l H. unfold _parse_steps, render_steps.
  destruct l as [|p l]; [reflexivity|].
  rewrite split_join.
  - apply parse_loop_lines, H.
  - discriminate.
  - apply Forall_map. eapply Forall_impl; [|exact H].
    intros [n t] (_ & _ & Hn). apply step_line_no_nl, Hn.
Qed.

Lemma parse_steps_round_trip_witness :
  Forall (fun '(n, t) => good_text t) Samples.two_steps /\
  _parse_steps (render_steps Samples.two_steps)
  = map (fun '(n, t) => {| step_number := n; narration := t |}) Samples.two_steps.
Proof.
  assert (Forall (fun '(n, t) => good_text t) Samples.two_steps) as H.
  { unfold Samples.two_steps.
    apply Forall_cons; [|apply Forall_cons; [|apply Forall_nil]];
      (cbv beta iota; unfold good_text; split;
       [intro H; discriminate H
       |split; [vm_compute; reflexivity|intro H; vm_compute in H; intuition discriminate]]). }
  split; [exact H|]. exact (parse_steps_round_trip Samples.two_steps H).
Defined.


End StepParserProofs.

(* ------------------------------------------------------------------ *)
(** ** [build_timing_context] *)

Module TimingContextProofs.
Import TimingAnalyzer ScriptGeneration TimingContext.
Local Open Scope string_scope.

Lemma analyze_fields : forall w ws ta,
  analyze_word_timings (w :: ws) = Ok ta ->
  has_timing_data ta = true /\ total_words ta = Some (length (w :: ws)) /\
  (exists g, num_gaps ta = Some g) /\
  total_duration ta = (get_num (end_ (last (w :: ws) w)) 0 - get_num (start w) 0)%float.
Proof.
  intros w ws ta H. unfold analyze_word_timings, bind in H. cbv zeta in H.
  repeat match type of H with
         | context [match ?m with Ok _ => _ | Raise _ => _ end] =>
             destruct m; [cbv beta iota in H|discriminate]
         end.
  injection H as <-. cbn. repeat split. eexists. reflexivity.
Qed.

(** X12: the timing context that [generate_product_script] builds from
    [analyze_word_timings] never raises: it is [No timing data available.]
    for an empty word list; otherwise its first line gives the total
    duration (last end minus first start, formatted with one decimal) and
    its second line is [Total Words: ] followed by the number of words. *)
Theorem timing_context_of_analysis : forall fmt_1f fmt_2f (words : list Word),
  exists s,
    bind (analyze_word_timings words) (build_timing_context fmt_1f fmt_2f) = Ok s /\
    (words = [] -> s = "No timing data available.") /\
    (forall w ws, words = w :: ws -> exists r,
        s = "Total Duration: "
            ++ fmt_1f (get_num (end_ (last (w :: ws) w)) 0 - get_num (start w) 0)%float
            ++ " seconds" ++ RagContext.nl_str ++
            "Total Words: " ++ str_nat (length words) ++ RagContext.nl_str ++ r).
Proof.
  intros fmt_1f fmt_2f [|w ws].
  - eexists. split; [reflexivity|]. split; [reflexivity|]. intros w ws H; discriminate H.
  - destruct (TimingProofs.analyze_ok (w :: ws)) as [ta Hta].
    destruct (analyze_fields w ws ta Hta) as (Hh & Hw & [g Hg] & Hd).
    rewrite Hta. unfold bind at 1. unfold build_timing_context.
    rewrite Hh, Hw, Hg. cbn [negb required bind].
    eexists. split; [reflexivity|]. split; [discriminate|].
    intros w' ws' Heq. injection Heq as <- <-. rewrite <- Hd.
    cbn [app]. rewrite !JoinFacts.concat_cons2, !JoinFacts.string_app_assoc.
    eexists. reflexivity.
Qed.

End TimingContextProofs.

(* ------------------------------------------------------------------ *)
(** ** [generate_voice_from_text] *)

Module VoiceProofs.
Import ElevenLabsService VoiceGeneration.

Section Post.
Variable post : nat -> pystr -> nat -> PyResult Response.

(** The chunks numbered from [i], as [enumerate(chunks, 1)] gives them. *)
Definition numbered (i : nat) (chunks : list pystr) : list (nat * pystr) :=
  combine (seq i (length chunks)) chunks.

Definition chunk_trace (p : nat * pystr) : list (nat * TraceEvent) :=
  map (pair (fst p)) (fst (_generate_single_chunk (post (fst p) (snd p)))).

Definition chunk_audio (p : nat * pystr) : list byte :=
  match snd (_generate_single_chunk (post (fst p) (snd p))) with
  | Ok a => a
  | Raise _ => []
  end.

Definition chunk_ok (p : nat * pystr) : Prop :=
  exists a, snd (_generate_single_chunk (post (fst p) (snd p))) = Ok a.

Lemma chunk_loop_all_ok : forall chunks i acc,
  Forall chunk_ok (numbered i chunks) ->
  chunk_loop i post chunks acc
  = (flat_map chunk_trace (numbered i chunks),
     Ok (acc ++ flat_map chunk_audio (numbered i chunks))).
Proof.
  intro chunks; induction chunks as [|c cs IH]; intros i acc H.
  - cbn. rewrite app_nil_r. reflexivity.
  - unfold numbered in *. cbn [length seq combine] in *.
    inversion H as [|? ? [a Ha] Hl]; subst. cbn [fst snd] in Ha.
    cbn [chunk_loop flat_map].
    unfold chunk_trace at 1, chunk_audio at 1. cbn [fst snd].
    destruct (_generate_single_chunk (post i c)) as [tr r] eqn:E.
    cbn [snd] in Ha. subst r. cbn [fst snd].
    rewrite IH by exact Hl. rewrite app_assoc. reflexivity.
Qed.

Lemma chunk_loop_first_failure : forall pre c rest i acc e,
  Forall chunk_ok (numbered i pre) ->
  snd (_generate_single_chunk (post (i + length pre) c)) = Raise e ->
  snd (chunk_loop i post (pre ++ c :: rest) acc) = Raise e /\
  Forall (fun ev => fst ev <= i + length pre) (fst (chunk_loop i post (pre ++ c :: rest) acc)).
Proof.
  intro pre; induction pre as [|c0 pre IH]; intros c rest i acc e Hpre Hc.
  - rewrite Nat.add_0_r in Hc. cbn [app chunk_loop].
    destruct (_generate_single_chunk (post i c)) as [tr r] eqn:E.
    cbn [snd] in Hc. subst r. cbn [fst snd]. split; [reflexivity|].
    apply Forall_forall. intros ev Hev. apply in_map_iff in Hev.
    destruct Hev as (t & <- & _). cbn. lia.
  - unfold numbered in Hpre. cbn [length seq combine] in Hpre.
    inversion Hpre as [|? ? [a Ha] Hl]; subst. cbn [fst snd] in Ha.
    cbn [app chunk_loop].
    destruct (_generate_single_chunk (post i c0)) as [tr r] eqn:E.
    cbn [snd] in Ha. subst r.
    cbn [length] in Hc. rewrite <- Nat.add_succ_comm in Hc.
    destruct (IH c rest (S i) (acc ++ a) e Hl Hc) as [Hr Hf].
    destruct (chunk_loop (S i) post (pre ++ c :: rest) (acc ++ a)) as [tr' r'] eqn:E'.
    cbn [fst snd] in *. split; [exact Hr|].
    apply Forall_app. split.
    + apply Forall_forall. intros ev Hev. apply in_map_iff in Hev.
      destruct Hev as (t & <- & _). cbn. lia.
    + cbn [length]. rewrite <- Nat.add_succ_comm. exact Hf.
Qed.

Lemma chunk_ok_of_bool : forall l,
  forallb (fun p => match snd (_generate_single_chunk (post (fst p) (snd p))) with
                    | Ok _ => true | Raise _ => false end) l = true ->
  Forall chunk_ok l.
Proof.
  intro l; induction l as [|p l IH]; intro H; constructor.
  - cbn [forallb] in H. apply andb_prop in H. destruct H as [H _].
    unfold chunk_ok. destruct (snd _); [eexists; reflexivity|discriminate].
  - cbn [forallb] in H. apply andb_prop in H. apply IH, H.
Qed.

Lemma generate_is_plan : forall key text,
  truthy_str key = true \/ strip text = [] ->
  generate_voice_from_text key post text = chunk_loop 1 post (tts_chunk_plan text) [].
Proof.
  intros key text H. unfold generate_voice_from_text, tts_chunk_plan.
  destruct (strip text) as [|ch t] eqn:Es; [reflexivity|].
  destruct H as [H|H]; [|discriminate]. rewrite H. cbn [negb]. cbv zeta.
  destruct (length (ensure_sentence_endings text) <=? MAX_CHUNK_SIZE); [|reflexivity].
  cbn [chunk_loop].
  destruct (_generate_single_chunk (post 1 (ensure_sentence_endings text))) as [tr [a|e]];
    cbn; rewrite ?app_nil_r; reflexivity.
Qed.

(** X13: with an API key configured (or for a blank text), when every
    request of the plan succeeds, [generate_voice_from_text] returns the
    audio of the chunks concatenated in order, and its requests are those
    of the chunks in order. *)
Theorem voice_chunks_concatenated : forall key text,
  truthy_str key = true \/ strip text = [] ->
  Forall chunk_ok (numbered 1 (tts_chunk_plan text)) ->
  generate_voice_from_text key post text
  = (flat_map chunk_trace (numbered 1 (tts_chunk_plan text)),
     Ok (flat_map chunk_audio (numbered 1 (tts_chunk_plan text)))).
Proof.
  intros key text Hk Hok. rewrite generate_is_plan by exact Hk.
  rewrite chunk_loop_all_ok by exact Hok. reflexivity.
Qed.


(** X14: with an API key configured, the first chunk whose request fails
    (after its retries) makes [generate_voice_from_text] raise that
    chunk's error, and no chunk after it is requested. *)
Theorem voice_first_failure : forall key text pre c rest e,
  truthy_str key = true ->
  tts_chunk_plan text = pre ++ c :: rest ->
  Forall chunk_ok (numbered 1 pre) ->
  snd (_generate_single_chunk (post (S (length pre)) c)) = Raise e ->
  snd (generate_voice_from_text key post text) = Raise e /\
  Forall (fun ev => fst ev <= S (length pre)) (fst (generate_voice_from_text key post text)).
Proof.
  intros key text pre c rest e Hk Hp Hpre Hc.
  rewrite generate_is_plan by (left; exact Hk). rewrite Hp.
  apply (chunk_loop_first_failure pre c rest 1 [] e Hpre). exact Hc.
Qed.


End Post.

Lemma voice_chunks_concatenated_witness :
  (truthy_str (Some "key"%string) = true \/ strip Samples.long_text = []) /\
  Forall (chunk_ok Samples.post_chunks) (numbered 1 (tts_chunk_plan Samples.long_text)) /\
  generate_voice_from_text (Some "key"%string) Samples.post_chunks Samples.long_text
  = (flat_map (chunk_trace Samples.post_chunks) (numbered 1 (tts_chunk_plan Samples.long_text)),
     Ok (flat_map (chunk_audio Samples.post_chunks)
           (numbered 1 (tts_chunk_plan Samples.long_text)))).
Proof.
  assert (truthy_str (Some "key"%string) = true \/ strip Samples.long_text = []) as H1
    by (left; reflexivity).
  assert (Forall (chunk_ok Samples.post_chunks) (numbered 1 (tts_chunk_plan Samples.long_text)))
    as H2 by (apply chunk_ok_of_bool; vm_compute; reflexivity).
  split; [exact H1|]. split; [exact H2|].
  exact (voice_chunks_concatenated Samples.post_chunks _ _ H1 H2).
Defined.

Lemma voice_first_failure_witness :
  let e := RuntimeError "Deepgram TTS timeout after 3 attempts. API may be slow or unresponsive."%string in
  truthy_str (Some "key"%string) = true /\
  tts_chunk_plan Samples.long_text
  = firstn 1 Samples.long_plan ++ nth 1 Samples.long_plan [] :: skipn 2 Samples.long_plan /\
  Forall (chunk_ok Samples.post_second_fails) (numbered 1 (firstn 1 Samples.long_plan)) /\
  snd (_generate_single_chunk (Samples.post_second_fails (S (length (firstn 1 Samples.long_plan)))
                                 (nth 1 Samples.long_plan []))) = Raise e /\
  snd (generate_voice_from_text (Some "key"%string) Samples.post_second_fails Samples.long_text)
  = Raise e /\
  Forall (fun ev => fst ev <= S (length (firstn 1 Samples.long_plan)))
    (fst (generate_voice_from_text (Some "key"%string) Samples.post_second_fails Samples.long_text)).
Proof.
  intro e.
  assert (truthy_str (Some "key"%string) = true) as H1 by reflexivity.
  assert (tts_chunk_plan Samples.long_text
          = firstn 1 Samples.long_plan ++ nth 1 Samples.long_plan [] :: skipn 2 Samples.long_plan)
    as H2 by (vm_compute; reflexivity).
  assert (Forall (chunk_ok Samples.post_second_fails) (numbered 1 (firstn 1 Samples.long_plan)))
    as H3 by (apply chunk_ok_of_bool; vm_compute; reflexivity).
  assert (snd (_generate_single_chunk (Samples.post_second_fails
                 (S (length (firstn 1 Samples.long_plan))) (nth 1 Samples.long_plan [])))
          = Raise e) as H4 by (vm_compute; reflexivity).
  destruct (voice_first_failure Samples.post_second_fails (Some "key"%string) Samples.long_text
              (firstn 1 Samples.long_plan) (nth 1 Samples.long_plan []) (skipn 2 Samples.long_plan)
              e H1 H2 H3 H4) as [H5 H6].
  exact (conj H1 (conj H2 (conj H3 (conj H4 (conj H5 H6))))).
Defined.

End VoiceProofs.

(* ------------------------------------------------------------------ *)
(** ** [AudioProcessRequest.words], [.sentences], [.paragraphs] *)

Module RequestModelProofs.
Import RequestModels.
Local Open Scope string_scope.

(** [d.get(k, [])] on a dictionary. *)
Definition dget (k : string) (d : list (string * json)) : json :=
  match dlookup k d with Some v => v | None => JList [] end.

Lemma catch_lookup_raise : forall r e, catch_lookup r = RRaise e -> exists t, e = TypeError t.
Proof.
  intros [a|[| | |t]] e H; cbn in H; try discriminate.
  injection H as <-. exists t. reflexivity.
Qed.

Lemma node_format_raise : forall self extract e,
  node_format self extract = RRaise e -> exists t, e = TypeError t.
Proof.
  intros self extract e H. unfold node_format in H.
  destruct (new_format "raw" (deepgramResponse self)) as [raw|]; [|discriminate].
  destruct (catch_lookup _) as [[v|]|e'] eqn:E; try discriminate.
  injection H as <-. exact (catch_lookup_raise _ _ E).
Qed.

Lemma node_format_not_dict : forall self extract raw,
  new_format "raw" (deepgramResponse self) = Some raw ->
  (forall d, raw <> JDict d) ->
  node_format self extract = ROk (JList []).
Proof.
  intros self extract raw Hr Hd. unfold node_format. rewrite Hr.
  destruct raw; try reflexivity. exfalso. eapply Hd. reflexivity.
Qed.

Lemma node_format_standard : forall self extract r res c0 cs a0 as_,
  new_format "raw" (deepgramResponse self) = Some (JDict r) ->
  dlookup "results" r = Some (JDict res) ->
  dlookup "channels" res = Some (JList (JDict c0 :: cs)) ->
  dlookup "alternatives" c0 = Some (JList (JDict a0 :: as_)) ->
  node_format self extract
  = match catch_lookup (rbind (extract (JDict a0)) (fun v => ROk (Some v))) with
    | ROk (Some v) => ROk v
    | ROk None => ROk (JList [])
    | RRaise e => RRaise e
    end.
Proof.
  intros self extract r res c0 cs a0 as_ Hraw Hres Hch Halt.
  unfold node_format. rewrite Hraw. unfold first_alternative, py_get.
  rewrite Hres. cbn [rbind]. rewrite Hch. cbn. rewrite Halt. cbn.
  destruct (extract (JDict a0)); reflexivity.
Qed.

(** X15: the three properties read [deepgramData] first: when it is a
    non-empty dictionary holding the key, [words], [sentences] and
    [paragraphs] return the stored value, whatever [deepgramResponse]
    holds. *)
Theorem new_format_first : forall self d,
  deepgramData self = Some d -> d <> [] ->
  (forall v, dlookup "words" d = Some v -> words self = ROk v) /\
  (forall v, dlookup "sentences" d = Some v -> sentences self = ROk v) /\
  (forall v, dlookup "paragraphs" d = Some v -> paragraphs self = ROk v).
Proof.
  intros self [|p d] Hd Hne; [congruence|].
  assert (forall k, new_format k (deepgramData self) = dlookup k (p :: d)) as Hn
    by (intro k; rewrite Hd; reflexivity).
  unfold words, sentences, paragraphs. rewrite !Hn.
  repeat split; intros v Hv; rewrite Hv; reflexivity.
Qed.

Lemma new_format_first_witness :
  deepgramData Samples.new_request
  = Some [("words", JList []); ("sentences", JNone)] /\
  [("words", JList []); ("sentences", JNone)] <> [] /\
  (forall v, dlookup "words" [("words", JList []); ("sentences", JNone)] = Some v ->
             words Samples.new_request = ROk v) /\
  (forall v, dlookup "sentences" [("words", JList []); ("sentences", JNone)] = Some v ->
             sentences Samples.new_request = ROk v) /\
  (forall v, dlookup "paragraphs" [("words", JList []); ("sentences", JNone)] = Some v ->
             paragraphs Samples.new_request = ROk v).
Proof.
  assert (deepgramData Samples.new_request = Some [("words", JList []); ("sentences", JNone)])
    as H1 by reflexivity.
  assert ([("words", JList []); ("sentences", JNone)] <> []) as H2 by discriminate.
  split; [exact H1|]. split; [exact H2|].
  exact (new_format_first Samples.new_request _ H1 H2).
Defined.


(** X16: in the Node.js format, for a response shaped as Deepgram sends it
    ([raw.results.channels[0].alternatives[0]] a dictionary), [words] is
    that alternative's [words], and [sentences] and [paragraphs] are the
    lists under its [paragraphs] dictionary, each [[]] when absent. *)
Theorem node_format_reads_first_alternative : forall self r res c0 cs a0 as_,
  new_format "words" (deepgramData self) = None ->
  new_format "sentences" (deepgramData self) = None ->
  new_format "paragraphs" (deepgramData self) = None ->
  new_format "raw" (deepgramResponse self) = Some (JDict r) ->
  dlookup "results" r = Some (JDict res) ->
  dlookup "channels" res = Some (JList (JDict c0 :: cs)) ->
  dlookup "alternatives" c0 = Some (JList (JDict a0 :: as_)) ->
  words self = ROk (dget "words" a0) /\
  (forall p, dlookup "paragraphs" a0 = Some (JDict p) ->
     sentences self = ROk (dget "sentences" p) /\
     paragraphs self = ROk (dget "paragraphs" p)).
Proof.
  intros self r res c0 cs a0 as_ Hw Hs Hp Hraw Hres Hch Halt.
  unfold words, sentences, paragraphs. rewrite Hw, Hs, Hp.
  rewrite !(node_format_standard self _ r res c0 cs a0 as_ Hraw Hres Hch Halt).
  split.
  - cbn. unfold dget. destruct (dlookup "words" a0); reflexivity.
  - intros p Hpar. cbn. rewrite Hpar. cbn.
    unfold dget. destruct (dlookup "sentences" p), (dlookup "paragraphs" p); split; reflexivity.
Qed.

Lemma node_format_reads_first_alternative_witness :
  words Samples.node_request = ROk (dget "words" Samples.dg_alternative) /\
  (forall p, dlookup "paragraphs" Samples.dg_alternative = Some (JDict p) ->
     sentences Samples.node_request = ROk (dget "sentences" p) /\
     paragraphs Samples.node_request = ROk (dget "paragraphs" p)).
Proof.
  exact (node_format_reads_first_alternative Samples.node_request
           (Samples.dg_raw (JList [JDict Samples.dg_channel]))
           (Samples.dg_results (JList [JDict Samples.dg_channel]))
           Samples.dg_channel [] Samples.dg_alternative []
           eq_refl eq_refl eq_refl eq_refl eq_refl eq_refl eq_refl).
Defined.


(** X17: the only exception that can escape [words], [sentences] or
    [paragraphs] is a [TypeError]; [KeyError], [IndexError] and
    [AttributeError] raised while walking the Node.js format are caught. *)
Theorem only_type_error_escapes : forall self e,
  (words self = RRaise e \/ sentences self = RRaise e \/ paragraphs self = RRaise e) ->
  exists t, e = TypeError t.
Proof.
  intros self e H. unfold words, sentences, paragraphs in H.
  destruct H as [H|[H|H]];
    match type of H with
    | match ?o with Some _ => _ | None => _ end = _ =>
        destruct o; [discriminate|exact (node_format_raise _ _ _ H)]
    end.
Qed.

Lemma only_type_error_escapes_witness :
  (words Samples.numeric_request = RRaise (TypeError "int") \/
   sentences Samples.numeric_request = RRaise (TypeError "int") \/
   paragraphs Samples.numeric_request = RRaise (TypeError "int")) /\
  exists t, TypeError "int" = TypeError t.
Proof.
  assert (words Samples.numeric_request = RRaise (TypeError "int") \/
          sentences Samples.numeric_request = RRaise (TypeError "int") \/
          paragraphs Samples.numeric_request = RRaise (TypeError "int")) as H
    by (left; reflexivity).
  split; [exact H|]. exact (only_type_error_escapes Samples.numeric_request _ H).
Defined.


(** X18: a truthy number in [raw.results.channels] is indexed with
    [channels[0]], which raises a [TypeError] that the [except] clause does
    not catch: the three properties raise it. *)
Theorem numeric_channels_raise : forall self r res z,
  new_format "words" (deepgramData self) = None ->
  new_format "sentences" (deepgramData self) = None ->
  new_format "paragraphs" (deepgramData self) = None ->
  new_format "raw" (deepgramResponse self) = Some (JDict r) ->
  dlookup "results" r = Some (JDict res) ->
  dlookup "channels" res = Some (JInt z) -> z <> 0%Z ->
  words self = RRaise (TypeError "int") /\
  sentences self = RRaise (TypeError "int") /\
  paragraphs self = RRaise (TypeError "int").
Proof.
  intros self r res z Hw Hs Hp Hraw Hres Hch Hz.
  unfold words, sentences, paragraphs. rewrite Hw, Hs, Hp.
  unfold node_format. rewrite Hraw. unfold first_alternative, py_get.
  rewrite Hres. cbn [rbind]. rewrite Hch. cbn [truthy].
  rewrite (proj2 (Z.eqb_neq z 0) Hz). cbn. repeat split.
Qed.

Lemma numeric_channels_raise_witness :
  (1 <> 0)%Z /\
  words Samples.numeric_request = RRaise (TypeError "int") /\
  sentences Samples.numeric_request = RRaise (TypeError "int") /\
  paragraphs Samples.numeric_request = RRaise (TypeError "int").
Proof.
  assert (1 <> 0)%Z as Hz by discriminate.
  split; [exact Hz|].
  exact (numeric_channels_raise Samples.numeric_request (Samples.dg_raw (JInt 1))
           (Samples.dg_results (JInt 1)) 1 eq_refl eq_refl eq_refl eq_refl eq_refl eq_refl Hz).
Defined.


(** X19: when [deepgramResponse["raw"]] is not a dictionary, [raw.get]
    raises an [AttributeError] that is caught, and the three properties
    fall back to [[]] (unless [deepgramData] holds the key). *)
Theorem raw_not_dict_empty : forall self raw,
  new_format "words" (deepgramData self) = None ->
  new_format "sentences" (deepgramData self) = None ->
  new_format "paragraphs" (deepgramData self) = None ->
  new_format "raw" (deepgramResponse self) = Some raw ->
  (forall d, raw <> JDict d) ->
  words self = ROk (JList []) /\ sentences self = ROk (JList []) /\
  paragraphs self = ROk (JList []).
Proof.
  intros self raw Hw Hs Hp Hraw Hd.
  unfold words, sentences, paragraphs. rewrite Hw, Hs, Hp.
  rewrite !(node_format_not_dict self _ raw Hraw Hd). repeat split.
Qed.

Lemma raw_not_dict_empty_witness :
  (forall d, JList [JStr "results"] <> JDict d) /\
  words Samples.list_raw_request = ROk (JList []) /\
  sentences Samples.list_raw_request = ROk (JList []) /\
  paragraphs Samples.list_raw_request = ROk (JList []).
Proof.
  assert (forall d, JList [JStr "results"] <> JDict d) as Hd by (intros d H; discriminate H).
  split; [exact Hd|].
  exact (raw_not_dict_empty Samples.list_raw_request (JList [JStr "results"])
           eq_refl eq_refl eq_refl eq_refl Hd).
Defined.


End RequestModelProofs.

(* ------------------------------------------------------------------ *)
(** ** [generate_synced_narration], [generate_step_by_step_narration] *)

Module SyncedNarrationProofs.
Import RagContext StepParser SyncedNarration TextInvariants.
Local Open Scope string_scope.

Section Generate.
Variable str_float : float -> string.
Variable fmt_1f : float -> string.
Variable ms_to_seconds : Z -> float.
Variable ms_div_1000 : Z -> float.
Variable synced_prompt : string -> string -> string -> string -> string.
Variable step_prompt : string -> string -> string -> string.
Variable generate_content : string -> PyResult string.

(** The prompt that [generate_synced_narration] sends. *)
Definition synced_prompt_of (raw_text : string) (session : RecordingSession) : string :=
  synced_prompt
    (build_rag_context_from_events str_float fmt_1f ms_to_seconds ms_div_1000 session)
    (extract_ui_elements_summary (session_events session))
    (_format_timeline fmt_1f (build_timeline_context str_float ms_to_seconds
                                (session_events session)))
    raw_text.

(** The prompt that [generate_step_by_step_narration] sends. *)
Definition step_prompt_of (raw_text : string) (session : RecordingSession) : string :=
  step_prompt
    (build_rag_context_from_events str_float fmt_1f ms_to_seconds ms_div_1000 session)
    (_format_timeline fmt_1f (build_timeline_context str_float ms_to_seconds
                                (session_events session)))
    raw_text.

(** X20: [generate_synced_narration] never raises.  When the generation
    call on its prompt returns a text, the narration is that text cleaned
    by [clean_output] (whitespace only as single inner spaces, so on one
    line), and the result counts the significant events (clicks, typing,
    step changes) and all events of the session; when that call raises,
    the narration is the error message and the counts are absent. *)
Theorem synced_narration_result : forall raw_text session,
  let run := generate_synced_narration str_float fmt_1f ms_to_seconds ms_div_1000
               synced_prompt generate_content raw_text session in
  (exists r, run = Ok r) /\
  (forall text, generate_content (synced_prompt_of raw_text session) = Ok text ->
     exists r, run = Ok r /\
       synced_narration r = ScriptClean.clean_output text /\
       cleaned (list_ascii_of_string (synced_narration r)) = true /\
       timeline_events r = Some (length (filter is_significant (session_events session))) /\
       total_dom_events r = Some (length (session_events session)) /\
       sn_error r = None) /\
  (forall e, generate_content (synced_prompt_of raw_text session) = Raise e ->
     exists r, run = Ok r /\
       synced_narration r = "Error generating synced narration: " ++ str_exn e /\
       timeline_events r = None /\ total_dom_events r = None /\
       sn_error r = Some (str_exn e)).
Proof.
  intros raw_text session run.
  assert (Hrun : run = try_except
    (text <- generate_content (synced_prompt_of raw_text session) ;;
     Ok {| synced_narration := ScriptClean.clean_output text;
           sn_raw_text := raw_text;
           rag_context_used := true;
           timeline_events := Some (significant_events
                                (build_timeline_context str_float ms_to_seconds
                                   (session_events session)));
           total_dom_events := Some (length (session_events session));
           sn_session_id := Some (sessionId session);
           sn_error := None |})
    (fun e =>
       Ok {| synced_narration := "Error generating synced narration: " ++ str_exn e;
             sn_raw_text := raw_text;
             rag_context_used := true;
             timeline_events := None;
             total_dom_events := None;
             sn_session_id := None;
             sn_error := Some (str_exn e) |})) by reflexivity.
  clearbody run. subst run.
  destruct (generate_content (synced_prompt_of raw_text session)) as [text|e] eqn:E.
  - split; [eexists; reflexivity|]. split; [|intros e' H; discriminate H].
    intros text' H. injection H as <-.
    eexists. split; [reflexivity|]. cbn.
    split; [reflexivity|]. split.
    + unfold ScriptClean.clean_output. rewrite list_ascii_of_string_of_list_ascii.
      apply TextProofs.clean_output_chars_shape.
    + unfold build_timeline_context. cbn. rewrite length_map. repeat split.
  - split; [eexists; reflexivity|]. split; [intros t H; discriminate H|].
    intros e' H. injection H as <-.
    eexists. split; [reflexivity|]. cbn. repeat split.
Qed.

(** X21: [generate_step_by_step_narration] never raises.  When the
    generation call on its prompt returns a text, the narration is that
    text stripped, and the parsed steps are [_parse_steps] of exactly the
    returned narration; when that call raises, the narration is [Error: ]
    and the message, with no steps. *)
Theorem step_by_step_result : forall raw_text session,
  let run := generate_step_by_step_narration str_float fmt_1f ms_to_seconds ms_div_1000
               step_prompt generate_content raw_text session in
  (exists r, run = Ok r) /\
  (forall text, generate_content (step_prompt_of raw_text session) = Ok text ->
     exists r, run = Ok r /\
       list_ascii_of_string (step_by_step r) = strip (list_ascii_of_string text) /\
       parsed_steps r = Some (_parse_steps (list_ascii_of_string (step_by_step r))) /\
       sb_error r = None) /\
  (forall e, generate_content (step_prompt_of raw_text session) = Raise e ->
     exists r, run = Ok r /\
       step_by_step r = "Error: " ++ str_exn e /\ parsed_steps r = None /\
       sb_error r = Some (str_exn e)).
Proof.
  intros raw_text session run.
  assert (Hrun : run = try_except
    (text <- generate_content (step_prompt_of raw_text session) ;;
     let step_narration := strip (list_ascii_of_string text) in
     Ok {| step_by_step := string_of_list_ascii step_narration;
           parsed_steps := Some (_parse_steps step_narration);
           sb_raw_text := raw_text;
           sb_rag_context_used := Some true;
           sb_session_id := Some (sessionId session);
           sb_error := None |})
    (fun e =>
       Ok {| step_by_step := "Error: " ++ str_exn e;
             parsed_steps := None;
             sb_raw_text := raw_text;
             sb_rag_context_used := None;
             sb_session_id := None;
             sb_error := Some (str_exn e) |})) by reflexivity.
  clearbody run. subst run.
  destruct (generate_content (step_prompt_of raw_text session)) as [text|e] eqn:E.
  - split; [eexists; reflexivity|]. split; [|intros e' H; discriminate H].
    intros text' H. injection H as <-.
    eexists. split; [reflexivity|]. cbn.
    rewrite list_ascii_of_string_of_list_ascii. repeat split.
  - split; [eexists; reflexivity|]. split; [intros t H; discriminate H|].
    intros e' H. injection H as <-.
    eexists. split; [reflexivity|]. cbn. repeat split.
Qed.

End Generate.

End SyncedNarrationProofs.
